(** * Verification of pyclarity-lims / genologics descriptors and entities

    Shallow embedding of [src/pyclarity_lims/entities.py] (entity identity
    cache, lazy [get], [create], [Process.all_inputs]) and of
    [src/genologics/descriptors.py] (nesting, scalar descriptors, the
    UDF dictionary projection and the list projection). *)

From Stdlib Require Import ZArith Lia.
From Stdlib Require Import DecimalN DecimalString.
From Stdlib Require DecimalPos DecimalZ.
From stdpp Require Import base gmap strings list.
Import ListNotations.
Open Scope list_scope.

(* ------------------------------------------------------------------ *)
(** ** Python values used by the code *)

(** Python exceptions raised by the modelled code. *)
Inductive exn :=
| ValueError
| KeyError
| IndexError
| TypeError
| AttributeError
| AssertionError
| NotImplementedError.

(** A computation over a state [S] that may raise: the state reached
    when the exception was raised is kept, as in Python. *)
Definition PyM (S A : Type) : Type := S -> S * (exn + A).

Definition ret {S A} (a : A) : PyM S A := fun s => (s, inr a).
Definition raise {S A} (e : exn) : PyM S A := fun s => (s, inl e).
Definition bind {S A B} (m : PyM S A) (k : A -> PyM S B) : PyM S B :=
  fun s => match m s with
           | (s', inl e) => (s', inl e)
           | (s', inr a) => k a s'
           end.
Definition get_st {S} : PyM S S := fun s => (s, inr s).
Definition put_st {S} (s : S) : PyM S unit := fun _ => (s, inr tt).

Notation "x <-- m ;; k" := (bind m (fun x => k))
  (at level 100, m at next level, right associativity).
Notation "m ;;; k" := (bind m (fun _ => k))
  (at level 100, right associativity).

(** Python truthiness of an optional string argument ([None] and [""]
    are false). *)
Definition truthy (s : option string) : bool :=
  match s with
  | Some x => negb (String.eqb x "")
  | None => false
  end.

(* ------------------------------------------------------------------ *)
(** ** ElementTree elements *)

#[local] Set Warnings "-register-all".

(** [xml.etree.ElementTree.Element]: tag, attribute dict, text and the
    ordered children. *)
Inductive elem : Type :=
| Elem (tag : string) (attrib : list (string * string))
       (text : option string) (children : list elem).

Definition e_tag (e : elem) : string := let 'Elem t _ _ _ := e in t.
Definition e_attrib (e : elem) := let 'Elem _ a _ _ := e in a.
Definition e_text (e : elem) : option string := let 'Elem _ _ x _ := e in x.
Definition e_children (e : elem) : list elem := let 'Elem _ _ _ c := e in c.

Definition set_children (e : elem) (cs : list elem) : elem :=
  let 'Elem t a x _ := e in Elem t a x cs.
Definition set_text (e : elem) (x : option string) : elem :=
  let 'Elem t a _ c := e in Elem t a x c.

(** [ElementTree.Element(tag)]: a fresh empty element. *)
Definition new_elem (t : string) : elem := Elem t [] None [].

(** [element.attrib[k]]: [None] is the [KeyError] case. *)
Fixpoint attr_lookup (a : list (string * string)) (k : string) : option string :=
  match a with
  | [] => None
  | (k', v) :: a' => if String.eqb k k' then Some v else attr_lookup a' k
  end.

(** [element.append(child)] *)
Definition append_child (e c : elem) : elem :=
  set_children e (e_children e ++ [c]).

(** [get_sub_node(node, name)]: the first child with that tag. *)
Fixpoint first_with_tag (cs : list elem) (t : string) : option elem :=
  match cs with
  | [] => None
  | c :: cs' => if String.eqb (e_tag c) t then Some c else first_with_tag cs' t
  end.

Definition get_sub_node (n : elem) (t : string) : option elem :=
  first_with_tag (e_children n) t.

(** [get_sub_nodes(node, name)]: all children with that tag, in order. *)
Definition get_sub_nodes (n : elem) (t : string) : list elem :=
  filter (fun c => String.eqb (e_tag c) t = true) (e_children n).

(** Replace the first child with tag [t] by [f] of it (the in-place
    mutation of the node [get_sub_node] returned). *)
Fixpoint update_first (cs : list elem) (t : string) (f : elem -> elem) : list elem :=
  match cs with
  | [] => []
  | c :: cs' => if String.eqb (e_tag c) t then f c :: cs'
                else c :: update_first cs' t f
  end.

(* ------------------------------------------------------------------ *)
(** ** Python [str], [int()] and [float()] on numbers, [str.lower], dates *)

(** [str(z)] for a Python [int]: decimal digits, with a leading minus
    sign when negative. *)
Definition py_str_int (z : Z) : string :=
  NilZero.string_of_int (Z.to_int z).

Definition lower_ascii (c : Ascii.ascii) : Ascii.ascii :=
  let n := Ascii.nat_of_ascii c in
  if (65 <=? n)%nat && (n <=? 90)%nat then Ascii.ascii_of_nat (n + 32) else c.

(** [str.lower()] on ASCII text. *)
Fixpoint py_lower (s : string) : string :=
  match s with
  | EmptyString => EmptyString
  | String c s' => String (lower_ascii c) (py_lower s')
  end.

(** ['\n' in s] *)
Fixpoint has_newline (s : string) : bool :=
  match s with
  | EmptyString => false
  | String c s' => Ascii.eqb c (Ascii.ascii_of_nat 10) || has_newline s'
  end.

(** Python's [str.isspace] on a character read as a Latin-1 code point:
    the characters [int()] and [float()] strip around a number (HT, LF,
    VT, FF, CR, the separators 0x1c-0x1f, space, NEL and NBSP). *)
Definition py_isspace (c : Ascii.ascii) : bool :=
  let n := Ascii.nat_of_ascii c in
  ((9 <=? n)%nat && (n <=? 13)%nat) || ((28 <=? n)%nat && (n <=? 32)%nat)
  || (n =? 133)%nat || (n =? 160)%nat.

Definition is_digit (c : Ascii.ascii) : bool :=
  let n := Ascii.nat_of_ascii c in (48 <=? n)%nat && (n <=? 57)%nat.

Definition is_char (c : Ascii.ascii) (n : nat) : bool := (Ascii.nat_of_ascii c =? n)%nat.

Fixpoint py_lstrip (s : string) : string :=
  match s with
  | EmptyString => EmptyString
  | String c s' => if py_isspace c then py_lstrip s' else s
  end.

Fixpoint py_rstrip (s : string) : string :=
  match s with
  | EmptyString => EmptyString
  | String c s' =>
      let r := py_rstrip s' in
      if String.eqb r "" && py_isspace c then EmptyString else String c r
  end.

(** [s.strip()] *)
Definition py_strip (s : string) : string := py_rstrip (py_lstrip s).

(** A run of ASCII digits with single underscores between digits (the
    digit groups of PEP 515), returned without its underscores; [prev]
    tells whether a digit was just read. *)
Fixpoint digits_us (prev : bool) (s : string) : option string :=
  match s with
  | EmptyString => if prev then Some EmptyString else None
  | String c s' =>
      if is_digit c then option_map (String c) (digits_us true s')
      else if is_char c 95 && prev then digits_us false s'
      else None
  end.

(** [int(s)] on a string, base 10: surrounding blanks, an optional sign,
    digits with digit-group underscores; [None] is the [ValueError]
    case. *)
Definition py_int_of_string (s : string) : option Z :=
  let t := py_strip s in
  let '(neg, body) :=
    match t with
    | String c r => if is_char c 45 then (true, r)
                    else if is_char c 43 then (false, r) else (false, t)
    | EmptyString => (false, t)
    end in
  match digits_us false body with
  | None => None
  | Some ds =>
      option_map (fun n => if neg then Z.opp (Z.of_uint n) else Z.of_uint n)
        (NilZero.uint_of_string ds)
  end.

(** Split at the first character satisfying [p]. *)
Fixpoint split_on (p : Ascii.ascii -> bool) (s : string) : string * option string :=
  match s with
  | EmptyString => (EmptyString, None)
  | String c s' =>
      if p c then (EmptyString, Some s')
      else let '(a, b) := split_on p s' in (String c a, b)
  end.

Definition drop_sign (s : string) : string :=
  match s with
  | String c r => if is_char c 43 || is_char c 45 then r else s
  | EmptyString => s
  end.

Definition digitpart (s : string) : bool :=
  match digits_us false s with Some _ => true | None => false end.

(** Whether [float(s)] accepts [s]: surrounding blanks, an optional sign,
    then [inf], [infinity] or [nan] in any case, or a decimal
    [digits[.[digits]]] or [.digits] with an optional exponent
    [(e|E)[sign]digits], digit groups allowing underscores. *)
Definition py_float_ok (s : string) : bool :=
  let t := drop_sign (py_strip s) in
  let lt := py_lower t in
  String.eqb lt "inf" || String.eqb lt "infinity" || String.eqb lt "nan" ||
  let '(mant, ex) := split_on (fun c => is_char c 101 || is_char c 69) t in
  let '(ip, fp) := split_on (fun c => is_char c 46) mant in
  let mant_ok :=
    match fp with
    | None => digitpart ip
    | Some f => (digitpart ip && (String.eqb f "" || digitpart f))
                || (String.eqb ip "" && digitpart f)
    end in
  let exp_ok := match ex with None => true | Some x => digitpart (drop_sign x) end in
  mant_ok && exp_ok.

(** ** [time.strptime(s, "%Y-%m-%d")] and [datetime.date] *)

Definition digit_val (c : Ascii.ascii) : Z := Z.of_nat (Ascii.nat_of_ascii c - 48).

Definition nonzero_digit (c : Ascii.ascii) : bool := is_digit c && negb (is_char c 48).

(** The alternatives of [%m], [1[0-2]|0[1-9]|[1-9]], in the order the
    regular expression tries them: the month and the text left. *)
Definition month_alts (s : string) : list (Z * string) :=
  match s with
  | String a (String b r) =>
      if is_char a 49 && is_digit b && (Ascii.nat_of_ascii b <=? 50)%nat
      then [(10 + digit_val b, r)%Z] else []
  | _ => []
  end ++
  match s with
  | String a (String b r) => if is_char a 48 && nonzero_digit b then [(digit_val b, r)] else []
  | _ => []
  end ++
  match s with
  | String a r => if nonzero_digit a then [(digit_val a, r)] else []
  | _ => []
  end.

(** The alternatives of [%d], [3[0-1]|[1-2]\d|0[1-9]|[1-9]| [1-9]], in
    order. *)
Definition day_alts (s : string) : list (Z * string) :=
  match s with
  | String a (String b r) =>
      if is_char a 51 && is_digit b && (Ascii.nat_of_ascii b <=? 49)%nat
      then [(30 + digit_val b, r)%Z] else []
  | _ => []
  end ++
  match s with
  | String a (String b r) =>
      if (is_char a 49 || is_char a 50) && is_digit b
      then [(10 * digit_val a + digit_val b, r)%Z] else []
  | _ => []
  end ++
  match s with
  | String a (String b r) => if is_char a 48 && nonzero_digit b then [(digit_val b, r)] else []
  | _ => []
  end ++
  match s with
  | String a r => if nonzero_digit a then [(digit_val a, r)] else []
  | _ => []
  end ++
  match s with
  | String a (String b r) => if is_char a 32 && nonzero_digit b then [(digit_val b, r)] else []
  | _ => []
  end.

Fixpoint first_some {A B} (f : A -> option B) (l : list A) : option B :=
  match l with
  | [] => None
  | x :: l' => match f x with Some y => Some y | None => first_some f l' end
  end.

(** [_strptime]'s [format_regex.match(s)] for
    [(?P<Y>\d\d\d\d)-(?P<m>...)-(?P<d>...)], backtracking over the month
    alternatives, then the ["unconverted data remains"] check. *)
Definition strptime_ymd (s : string) : option (Z * Z * Z) :=
  match s with
  | String a (String b (String c (String d r))) =>
      if is_digit a && is_digit b && is_digit c && is_digit d then
        let y := (1000 * digit_val a + 100 * digit_val b + 10 * digit_val c + digit_val d)%Z in
        match r with
        | String h r1 =>
            if is_char h 45 then
              match first_some
                      (fun '(m, r2) =>
                         match r2 with
                         | String h' r3 =>
                             if is_char h' 45 then
                               match day_alts r3 with
                               | (dd, r4) :: _ => Some (m, dd, r4)
                               | [] => None
                               end
                             else None
                         | EmptyString => None
                         end) (month_alts r1) with
              | Some (m, dd, EmptyString) => Some (y, m, dd)
              | _ => None
              end
            else None
        | EmptyString => None
        end
      else None
  | _ => None
  end.

Definition is_leap (y : Z) : bool :=
  ((Z.modulo y 4 =? 0)%Z && negb (Z.modulo y 100 =? 0)%Z) || (Z.modulo y 400 =? 0)%Z.

Definition days_in_month (y m : Z) : Z :=
  (if m =? 2 then (if is_leap y then 29 else 28)
   else if (m =? 4) || (m =? 6) || (m =? 9) || (m =? 11) then 30 else 31)%Z.

Definition digit_char (k : Z) : Ascii.ascii := Ascii.ascii_of_nat (48 + Z.to_nat k).

(** [str(date)]: [isoformat()], ["%04d-%02d-%02d"]. *)
Definition date_iso (y m d : Z) : string :=
  String (digit_char (y / 1000 mod 10)%Z) (String (digit_char (y / 100 mod 10)%Z)
  (String (digit_char (y / 10 mod 10)%Z) (String (digit_char (y mod 10)%Z)
  (String (Ascii.ascii_of_nat 45) (String (digit_char (m / 10)%Z) (String (digit_char (m mod 10)%Z)
  (String (Ascii.ascii_of_nat 45) (String (digit_char (d / 10)%Z) (String (digit_char (d mod 10)%Z) EmptyString))))))))).

(** [datetime.date] of the first three fields of
    [time.strptime(s, "%Y-%m-%d")], as its [str()]; [None] is the [ValueError] case: no match, text left over, year 0 or
    a day past the end of the month. *)
Definition parse_date (s : string) : option string :=
  match strptime_ymd s with
  | Some (y, m, d) =>
      if (1 <=? y)%Z && (1 <=? m)%Z && (m <=? 12)%Z && (1 <=? d)%Z && (d <=? days_in_month y m)%Z
      then Some (date_iso y m d) else None
  | None => None
  end.

(* ------------------------------------------------------------------ *)
(** ** [Nestable.rootnode] (descriptors.py) *)

(** [Nestable.rootnode(instance)]: walk the nesting keys from the root,
    descending into the first child with each key and creating and
    appending an empty element for each key that is missing. Returns the
    (possibly extended) root and the node reached. *)
Fixpoint rootnode (keys : list string) (n : elem) : elem * elem :=
  match keys with
  | [] => (n, n)
  | k :: ks =>
      match get_sub_node n k with
      | Some ch =>
          let '(ch', f) := rootnode ks ch in
          (set_children n (update_first (e_children n) k (fun _ => ch')), f)
      | None =>
          let '(ch', f) := rootnode ks (new_elem k) in
          (append_child n ch', f)
      end
  end.

(** [rootnode(instance)] followed by an in-place mutation [f] of the node
    it returned. *)
Fixpoint modify_nested (keys : list string) (f : elem -> elem) (n : elem) : elem :=
  match keys with
  | [] => f n
  | k :: ks =>
      match get_sub_node n k with
      | Some _ => set_children n (update_first (e_children n) k (modify_nested ks f))
      | None => append_child n (modify_nested ks f (new_elem k))
      end
  end.

(* ------------------------------------------------------------------ *)
(** ** Reads through a nesting path (descriptors.py) *)

Module Nested.

(** Descent along first matches without creating anything ([None] when
    an element of the path is missing). *)
Fixpoint follow (keys : list string) (n : elem) : option elem :=
  match keys with
  | [] => Some n
  | k :: ks => match get_sub_node n k with
               | Some ch => follow ks ch
               | None => None
               end
  end.

(** The chain [<k><k2>...</k2></k>] of fresh empty elements, nested in
    path order, and its innermost tag. *)
Fixpoint chain (k : string) (ks : list string) : elem :=
  match ks with
  | [] => new_elem k
  | k' :: ks' => Elem k [] None [chain k' ks']
  end.

Fixpoint deepest (k : string) (ks : list string) : string :=
  match ks with
  | [] => k
  | k' :: ks' => deepest k' ks'
  end.

(** [StringListDescriptor.__get__] on a fetched entity (the
    [instance.get()] call is a no-op there): the texts of the children
    with the tag, under [rootnode]. Returns the document after the read. *)
Definition string_list_get (tag : string) (keys : list string) (root : elem)
  : elem * list (option string) :=
  let '(root', n) := rootnode keys root in
  (root', map e_text (get_sub_nodes n tag)).

(** [StringDictionaryDescriptor.__get__]: tag -> text of the children of
    the first [tag] child (a later child overrides an earlier key). *)
Fixpoint str_dict_set (k : string) (v : option string) (it : list (string * option string)) :=
  match it with
  | [] => [(k, v)]
  | (k', v') :: r => if String.eqb k k' then (k, v) :: r else (k', v') :: str_dict_set k v r
  end.

Definition string_dict_get (tag : string) (keys : list string) (root : elem)
  : elem * list (string * option string) :=
  let '(root', n) := rootnode keys root in
  (root', match get_sub_node n tag with
          | Some node => fold_left (fun acc c => str_dict_set (e_tag c) (e_text c) acc)
                           (e_children node) []
          | None => []
          end).

(** [TagXmlList._update_elems] for [EntityList] and [AttributeList]
    (their [rootnode] is [Nestable]'s by the MRO): the children with the
    tag under [rootnode]. *)
Definition tag_list_elems (tag : string) (keys : list string) (root : elem)
  : elem * list elem :=
  let '(root', n) := rootnode keys root in (root', get_sub_nodes n tag).

(** The scan of [InputOutputMapList.__get__]: the [input-output-map]
    children under [rootnode]. *)
Definition iomap_nodes (keys : list string) (root : elem) : elem * list elem :=
  let '(root', n) := rootnode keys root in (root', get_sub_nodes n "input-output-map").

End Nested.

(* ------------------------------------------------------------------ *)
(** ** [StringDescriptor] and [IntegerDescriptor] (descriptors.py) *)

Module Scalar.

(** The values a caller assigns to a scalar descriptor. *)
Inductive pyarg := AInt (z : Z) | AStr (s : string).

(** [str(value)] *)
Definition py_str (v : pyarg) : string :=
  match v with AInt z => py_str_int z | AStr s => s end.

(** [TagDescriptor.get_node] with [XmlElement.rootnode]
    ([instance.root]); [if self.tag] is false on the empty tag. *)
Definition get_node (tag : string) (root : elem) : option elem :=
  if String.eqb tag "" then Some root else get_sub_node root tag.

(** [StringDescriptor.__get__] on a fetched entity: [None] for a missing
    node and for a node without text. *)
Definition string_get (tag : string) (root : elem) : option string :=
  match get_node tag root with
  | None => None
  | Some n => e_text n
  end.

(** [StringDescriptor.__set__] on a fetched entity: the new document. *)
Definition string_set (tag : string) (root : elem) (v : pyarg) : elem :=
  let txt := Some (py_str v) in
  if String.eqb tag "" then set_text root txt
  else match get_sub_node root tag with
       | Some _ => set_children root (update_first (e_children root) tag (fun n => set_text n txt))
       | None => append_child root (Elem tag [] txt [])
       end.

(** [IntegerDescriptor.__get__]: [int(text)], [None] without text. *)
Definition integer_get (tag : string) (root : elem) : exn + option Z :=
  match string_get tag root with
  | None => inr None
  | Some t => match py_int_of_string t with
              | Some z => inr (Some z)
              | None => inl ValueError
              end
  end.

(** [IntegerDescriptor.__set__] is [StringDescriptor.__set__]. *)
Definition integer_set := string_set.

End Scalar.

(* ------------------------------------------------------------------ *)
(** ** [XmlList] and [TagXmlList] (descriptors.py) *)

Module XmlListModel.

(** Python list positions: [l[i]] and [l[i] = v] ([None] is the
    [IndexError] case), and the position [list.insert] and
    [Element.insert] use (both clamp). *)
Definition norm_index (i : Z) (len : nat) : option nat :=
  let j := if (i <? 0)%Z then (i + Z.of_nat len)%Z else i in
  if (0 <=? j)%Z && (j <? Z.of_nat len)%Z then Some (Z.to_nat j) else None.

Definition insert_pos (i : Z) (len : nat) : nat :=
  Z.to_nat (if (i <? 0)%Z then Z.max 0 (i + Z.of_nat len) else Z.min i (Z.of_nat len)).

Definition insert_at {A} (n : nat) (x : A) (l : list A) : list A :=
  firstn n l ++ x :: skipn n l.

(** [rootnode.remove(self._elems[j])]: [_elems] is the list of the
    children with the tag, rescanned after every mutator, so its [j]-th
    entry is the [j]-th such child. *)
Fixpoint remove_nth_tagged (tag : string) (j : nat) (cs : list elem) : list elem :=
  match cs with
  | [] => []
  | c :: cs' =>
      if String.eqb (e_tag c) tag then
        match j with
        | O => cs'
        | S j' => c :: remove_nth_tagged tag j' cs'
        end
      else c :: remove_nth_tagged tag j cs'
  end.

(** Subscripts of [__setitem__]. *)
Inductive py_index := IInt (i : Z) | ISlice (start stop step : option Z).

Section XmlList.
(** The element type of the Python list, how [_create_new_node] encodes
    it as attributes and how [_parse_element] decodes an element
    ([AttributeList]: a [dict] of the attributes; [EntityList]: an
    entity from the [uri] attribute). *)
Variable item : Type.
Variable node_attrs : item -> list (string * string).
Variable parse_element : elem -> item.
Variable tag : string.
Variable keys : list string.

(** The projection: the document, [self._elems] and the list contents. *)
Record xl := XL { xl_root : elem; xl_elems : list elem; xl_items : list item }.

Definition focus (s : xl) : elem := snd (rootnode keys (xl_root s)).

(** [TagXmlList._update_elems] *)
Definition update_elems : PyM xl unit := fun s =>
  let '(r, n) := rootnode keys (xl_root s) in
  (XL r (get_sub_nodes n tag) (xl_items s), inr tt).

(** [XmlList.__init__]: [_update_elems] then [_prepare_list]. *)
Definition xl_init (root : elem) : xl * (exn + unit) :=
  (update_elems ;;; (fun s => (XL (xl_root s) (xl_elems s) (map parse_element (xl_elems s)), inr tt)))
    (XL root [] []).

(** An in-place change of the children of [self.rootnode(instance)]. *)
Definition edit_focus (f : list elem -> list elem) : PyM xl unit := fun s =>
  (XL (modify_nested keys (fun n => set_children n (f (e_children n))) (xl_root s))
      (xl_elems s) (xl_items s), inr tt).

Definition set_items (f : list item -> list item) : PyM xl unit := fun s =>
  (XL (xl_root s) (xl_elems s) (f (xl_items s)), inr tt).

Definition create_new_node (v : item) : elem := Elem tag (node_attrs v) None [].

Definition additem (v : item) : PyM xl unit :=
  edit_focus (fun cs => cs ++ [create_new_node v]).

Definition insertitem (i : Z) (v : item) : PyM xl unit :=
  edit_focus (fun cs => insert_at (insert_pos i (length cs)) (create_new_node v) cs).

Definition delitem_ (i : Z) : PyM xl unit := fun s =>
  match norm_index i (length (xl_elems s)) with
  | None => (s, inl IndexError)
  | Some j => edit_focus (remove_nth_tagged tag j) s
  end.

(** [_setitem(index, value)]: remove the old element, insert the new
    one at [index] of the children. *)
Definition setitem_ (i : Z) (v : item) : PyM xl unit :=
  delitem_ i ;;; insertitem i v.

(** [list.__setitem__(self, i, item)] for an integer subscript. *)
Definition list_setitem (i : Z) (v : item) : PyM xl unit := fun s =>
  match norm_index i (length (xl_items s)) with
  | None => (s, inl IndexError)
  | Some j => set_items (fun l => <[j:=v]> l) s
  end.

(** [__setitem__]: for a slice, [zip(i, item)] raises [TypeError] as a
    [slice] is not iterable. *)
Definition setitem (i : py_index) (v : item) : PyM xl unit :=
  match i with
  | IInt z => setitem_ z v ;;; update_elems ;;; list_setitem z v
  | ISlice _ _ _ => raise TypeError
  end.

Definition insert (i : Z) (v : item) : PyM xl unit :=
  insertitem i v ;;; update_elems ;;;
  set_items (fun l => insert_at (insert_pos i (length l)) v l).

Definition append (v : item) : PyM xl unit :=
  additem v ;;; update_elems ;;; set_items (fun l => l ++ [v]).

Fixpoint additems (vs : list item) : PyM xl unit :=
  match vs with
  | [] => ret tt
  | v :: vs' => additem v ;;; additems vs'
  end.

Definition extend (vs : list item) : PyM xl unit :=
  additems vs ;;; update_elems ;;; set_items (fun l => l ++ vs).

(** [dict.clear(self)] on a [list] instance: the [dict] method refuses
    an object that is not a [dict] with [TypeError]. *)
Definition dict_clear_on_list : PyM xl unit := raise TypeError.

(** [XmlList.clear] *)
Definition clear : PyM xl unit :=
  dict_clear_on_list ;;;
  edit_focus (filter (fun c => negb (String.eqb (e_tag c) tag))) ;;;
  update_elems.

End XmlList.

Arguments XL {item}.
Arguments xl_root {item}.
Arguments xl_elems {item}.
Arguments xl_items {item}.

(** [AttributeList]: a [dict] is an attribute list. *)
Definition attr_setitem := setitem (list (string * string)) (fun v => v).
Definition attr_init := xl_init (list (string * string)) e_attrib.
Definition attr_clear := clear (list (string * string)).

End XmlListModel.

(* ------------------------------------------------------------------ *)
(** ** [InputOutputMapList] (descriptors.py) and [Process.all_inputs] *)

Module ProcessModel.

(** A [get_dict] result: keys to attribute values; an [Artifact] or
    [Process] value is kept as its [uri]. *)
Definition pdict := list (string * string).

Fixpoint pdict_set (k v : string) (d : pdict) : pdict :=
  match d with
  | [] => [(k, v)]
  | (k', v') :: r => if String.eqb k k' then (k, v) :: r else (k', v') :: pdict_set k v r
  end.

Fixpoint pdict_get (d : pdict) (k : string) : option string :=
  match d with
  | [] => None
  | (k', v) :: r => if String.eqb k k' then Some v else pdict_get r k
  end.

(** [result[key] = node.attrib[key]] inside [try ... except KeyError: pass]. *)
Definition copy_attr (a : list (string * string)) (key : string) (d : pdict) : pdict :=
  match attr_lookup a key with Some v => pdict_set key v d | None => d end.

(** [result[uri] = Artifact(lims, uri=node.attrib[uri])] inside
    [try ... except KeyError: pass]: a missing attribute is skipped, while
    the empty [uri] makes [Entity.__new__] raise [ValueError] (no uri, no
    id, not [_create_new]), which escapes. *)
Definition copy_artifact (a : list (string * string)) (key : string) (d : pdict) : exn + pdict :=
  match attr_lookup a key with
  | Some v => if String.eqb v "" then inl ValueError else inr (pdict_set key v d)
  | None => inr d
  end.

(** [InputOutputMapList.get_dict]; [Process(lims, node.attrib['uri'])]
    raises [KeyError] without the attribute and [ValueError] on [''].  *)
Definition get_dict (node : option elem) : exn + option pdict :=
  match node with
  | None => inr None
  | Some n =>
      let a := e_attrib n in
      let step (acc : exn + pdict) (key : string) : exn + pdict :=
        match acc with
        | inl e => inl e
        | inr d =>
            match copy_artifact a "uri" (copy_attr a key d) with
            | inl e => inl e
            | inr d' => copy_artifact a "post-process-uri" d'
            end
        end in
      match fold_left step ["limsid"; "output-type"; "output-generation-type"] (inr []) with
      | inl e => inl e
      | inr d =>
          match get_sub_node n "parent-process" with
          | None => inr (Some d)
          | Some pp => match attr_lookup (e_attrib pp) "uri" with
                       | Some u => if String.eqb u "" then inl ValueError
                                   else inr (Some (pdict_set "parent-process" u d))
                       | None => inl KeyError
                       end
          end
      end
  end.

(** [InputOutputMapList.__get__] with the empty nesting of
    [Process.input_output_maps]. *)
Fixpoint io_pairs (nodes : list elem) : exn + list (option pdict * option pdict) :=
  match nodes with
  | [] => inr []
  | n :: ns =>
      match get_dict (get_sub_node n "input") with
      | inl e => inl e
      | inr i =>
          match get_dict (get_sub_node n "output") with
          | inl e => inl e
          | inr o => match io_pairs ns with
                     | inl e => inl e
                     | inr r => inr ((i, o) :: r)
                     end
          end
      end
  end.

Definition input_output_maps (root : elem) : exn + list (option pdict * option pdict) :=
  io_pairs (get_sub_nodes (snd (rootnode [] root)) "input-output-map").

(** [[io[0]['limsid'] for io in ...]]: subscripting [None] is a
    [TypeError], a missing key a [KeyError]. *)
Fixpoint input_ids (ios : list (option pdict * option pdict)) : exn + list string :=
  match ios with
  | [] => inr []
  | (None, _) :: _ => inl TypeError
  | (Some d, _) :: r =>
      match pdict_get d "limsid" with
      | None => inl KeyError
      | Some id => match input_ids r with inl e => inl e | inr ids => inr (id :: ids) end
      end
  end.

(** The records [logger.error] emits. *)
Inductive log_entry := LogNoInputArtifacts.

Section AllInputs.
(** The iteration order of [list(frozenset(ids))]: the distinct ids in
    an order Python leaves unspecified. *)
Variable frozen : list string -> list string.

(** [[Artifact(self.lims, id=id) for id in ids if id is not None]]:
    an attribute value is never [None], so every id is kept, and
    [Artifact(lims, id='')] raises [ValueError] in [Entity.__new__]. *)
Definition artifacts_of_ids (ids : list string) : exn + list string :=
  if existsb (String.eqb "") ids then inl ValueError else inr ids.

(** [Process.all_inputs(unique, resolve=False)] on a fetched process:
    the limsids of the returned [Artifact]s; the state is the error log.
    Only the comprehension over [input_output_maps] is inside the
    [try ... except TypeError]. *)
Definition all_inputs (unique : bool) (root : elem) : PyM (list log_entry) (list string) :=
  fun log =>
    let ids := match input_output_maps root with
               | inl e => inl e
               | inr ios => input_ids ios
               end in
    match ids with
    | inl TypeError => (log ++ [LogNoInputArtifacts], inl TypeError)
    | inl e => (log, inl e)
    | inr ids => (log, artifacts_of_ids (if unique then frozen ids else ids))
    end.

End AllInputs.

End ProcessModel.

(* ------------------------------------------------------------------ *)
(** ** [UdfDictionary] (descriptors.py) *)

Module Udf.

(** The Python values a UDF dictionary holds or is given. A
    [datetime.date] is kept as its ISO text. A [float] is kept as a text
    denoting it: its [str()] for a value given to the dictionary, the
    field text [float()] read for a value parsed from the document (the
    rounding that would make two such texts one float is not modelled). *)
Inductive pyval :=
| PStr (s : string)
| PBool (b : bool)
| PInt (z : Z)
| PFloat (repr : string)
| PDate (iso : string)
| PNone
| POther.

(** [self._udt]: the flag given at construction, or the UDT name read
    from the document. *)
Inductive udt_flag := UdtFalse | UdtTrue | UdtName (name : string).

Definition udt_truthy (u : udt_flag) : bool :=
  match u with
  | UdtFalse => false
  | UdtTrue => true
  | UdtName n => negb (String.eqb n "")
  end.

Definition udf_field : string := "{http://genologics.com/ri/userdefined}field".
Definition udf_type : string := "{http://genologics.com/ri/userdefined}type".

(** The projection: the entity root it edits, its nesting keys, [_udt]
    and the Python [dict] contents (insertion ordered). The cached
    [_elems] list is not stored: every mutator that changes which field
    elements exist rescans, so it always equals [elems] below, the scan
    of the current document. *)
Record udf_dict := UdfDict {
  ud_root : elem;
  ud_nesting : list string;
  ud_udt : udt_flag;
  ud_items : list (string * pyval)
}.

Definition with_root (d : udf_dict) (r : elem) : udf_dict :=
  UdfDict r (ud_nesting d) (ud_udt d) (ud_items d).
Definition with_udt (d : udf_dict) (u : udt_flag) : udf_dict :=
  UdfDict (ud_root d) (ud_nesting d) u (ud_items d).
Definition with_items (d : udf_dict) (it : list (string * pyval)) : udf_dict :=
  UdfDict (ud_root d) (ud_nesting d) (ud_udt d) it.

(** [dict.__setitem__]: replace in place or append. *)
Fixpoint dict_set (k : string) (v : pyval) (it : list (string * pyval)) :=
  match it with
  | [] => [(k, v)]
  | (k', v') :: r => if String.eqb k k' then (k, v) :: r else (k', v') :: dict_set k v r
  end.

Fixpoint dict_mem (k : string) (it : list (string * pyval)) : bool :=
  match it with
  | [] => false
  | (k', _) :: r => String.eqb k k' || dict_mem k r
  end.

Fixpoint dict_remove (k : string) (it : list (string * pyval)) :=
  match it with
  | [] => []
  | (k', v') :: r => if String.eqb k k' then r else (k', v') :: dict_remove k r
  end.

(** The node [rootnode] reaches. *)
Definition focus (d : udf_dict) : elem := snd (rootnode (ud_nesting d) (ud_root d)).

(** [self._elems] as [_update_elems] computes it. *)
Definition elems (d : udf_dict) : list elem :=
  if udt_truthy (ud_udt d) then
    match get_sub_node (focus d) udf_type with
    | Some t => get_sub_nodes t udf_field
    | None => []
    end
  else get_sub_nodes (focus d) udf_field.

(** [_update_elems]: [rootnode] creates the nesting path; in UDT mode the
    UDT name is read from the [udf:type] element. *)
Definition update_elems : PyM udf_dict unit := fun d =>
  let d' := with_root d (fst (rootnode (ud_nesting d) (ud_root d))) in
  if udt_truthy (ud_udt d) then
    match get_sub_node (focus d') udf_type with
    | Some t =>
        match attr_lookup (e_attrib t) "name" with
        | Some nm => (with_udt d' (UdtName nm), inr tt)
        | None => (d', inl KeyError)
        end
    | None => (d', inr tt)
    end
  else (d', inr tt).

(** The value [_parse_element] decodes from a field's text: [int()],
    else [float()], for a numeric field, [time.strptime] for a date
    field; either raising is the [ValueError]. *)
Definition parse_value (ty : string) (text : option string) : exn + pyval :=
  match text with
  | None | Some EmptyString => inr PNone
  | Some v =>
      if String.eqb ty "numeric" then
        match py_int_of_string v with
        | Some z => inr (PInt z)
        | None => if py_float_ok v then inr (PFloat v) else inl ValueError
        end
      else if String.eqb ty "boolean" then inr (PBool (String.eqb v "true"))
      else if String.eqb ty "date" then
        match parse_date v with Some iso => inr (PDate iso) | None => inl ValueError end
      else inr (PStr v)
  end.

(** [_parse_element(element)] *)
Definition parse_element (e : elem) : PyM udf_dict unit := fun d =>
  match attr_lookup (e_attrib e) "type" with
  | None => (d, inl KeyError)
  | Some ty =>
      match parse_value (py_lower ty) (e_text e) with
      | inl err => (d, inl err)
      | inr v =>
          match attr_lookup (e_attrib e) "name" with
          | None => (d, inl KeyError)
          | Some nm => (with_items d (dict_set nm v (ud_items d)), inr tt)
          end
      end
  end.

Fixpoint parse_all (es : list elem) : PyM udf_dict unit :=
  match es with
  | [] => ret tt
  | e :: es' => parse_element e ;;; parse_all es'
  end.

(** [_prepare_lookup] *)
Definition prepare_lookup : PyM udf_dict unit := fun d => parse_all (elems d) d.

(** [UdfDictionary(instance, nesting, udt=flag)] *)
Definition udf_init (root : elem) (nesting : list string) (udt : bool)
  : udf_dict * (exn + unit) :=
  (update_elems ;;; prepare_lookup)
    (UdfDict root nesting (if udt then UdtTrue else UdtFalse) []).

(** [element.set(k, v)] *)
Fixpoint attrs_set (k v : string) (a : list (string * string)) : list (string * string) :=
  match a with
  | [] => [(k, v)]
  | (k', v') :: a' => if String.eqb k k' then (k, v) :: a' else (k', v') :: attrs_set k v a'
  end.

Definition attr_set (k v : string) (e : elem) : elem :=
  let 'Elem t a x c := e in Elem t (attrs_set k v a) x c.

(** Apply [f] to the children that hold the fields: those of the node
    [rootnode] reaches, or in UDT mode those of its [udf:type] child. *)
Definition in_fields (d : udf_dict) (f : list elem -> list elem) : elem :=
  modify_nested (ud_nesting d)
    (fun fc =>
       if udt_truthy (ud_udt d) then
         set_children fc (update_first (e_children fc) udf_type
                            (fun t => set_children t (f (e_children t))))
       else set_children fc (f (e_children fc)))
    (ud_root d).

(** The loop of [_setitem] over [self._elems]: the first field named
    [key] ([None]: the [for ... else] branch). *)
Fixpoint find_field (key : string) (es : list elem) : exn + option elem :=
  match es with
  | [] => inr None
  | e :: es' =>
      match attr_lookup (e_attrib e) "name" with
      | None => inl KeyError
      | Some nm => if String.eqb nm key then inr (Some e) else find_field key es'
      end
  end.

(** [node.text = value] on that first field named [key]. *)
Fixpoint set_text_named (key x : string) (cs : list elem) : list elem :=
  match cs with
  | [] => []
  | c :: cs' =>
      if String.eqb (e_tag c) udf_field && bool_decide (attr_lookup (e_attrib c) "name" = Some key)
      then set_text c (Some x) :: cs'
      else c :: set_text_named key x cs'
  end.

Definition py_bool_lower (b : bool) : string := if b then "true" else "false".
Definition py_str_bool (b : bool) : string := if b then "True" else "False".

(** The type check and encoding of [_setitem] for an existing field of
    (lower-cased) type [vtype]. For [None] the text becomes
    [str(None).encode('UTF-8')], the bytes [b'None'], written here as
    "None". An unknown type reaches [raise NotImplemented(...)], which
    raises [TypeError] since [NotImplemented] is not callable. *)
Definition encode_existing (vtype : string) (value : pyval) : exn + string :=
  match value with
  | PNone => inr "None"
  | _ =>
    if String.eqb vtype "string" || String.eqb vtype "str" || String.eqb vtype "text" then
      match value with PStr s => inr s | _ => inl TypeError end
    else if String.eqb vtype "numeric" then
      match value with
      | PInt z => inr (py_str_int z)
      | PFloat r => inr r
      | PBool b => inr (py_str_bool b)   (* bool is an int subclass *)
      | _ => inl TypeError
      end
    else if String.eqb vtype "boolean" then
      match value with PBool b => inr (py_bool_lower b) | _ => inl TypeError end
    else if String.eqb vtype "date" then
      match value with PDate iso => inr iso | _ => inl TypeError end
    else if String.eqb vtype "uri" then
      match value with PStr s => inr s | _ => inl TypeError end
    else inl TypeError
  end.

(** The type heuristics of [_setitem] for a new key. *)
Definition infer_new (value : pyval) : exn + (string * string) :=
  match value with
  | PStr s => inr (if has_newline s then "Text" else "String", s)
  | PBool b => inr ("Boolean", py_bool_lower b)
  | PInt z => inr ("Numeric", py_str_int z)
  | PFloat r => inr ("Numeric", r)
  | PDate iso => inr ("Date", iso)
  | PNone | POther => inl NotImplementedError
  end.

(** [UdfDictionary._setitem(key, value)] *)
Definition setitem_ (key : string) (value : pyval) : PyM udf_dict unit := fun d =>
  match find_field key (elems d) with
  | inl e => (d, inl e)
  | inr (Some node) =>
      match attr_lookup (e_attrib node) "type" with
      | None => (d, inl KeyError)
      | Some ty =>
          match encode_existing (py_lower ty) value with
          | inl e => (d, inl e)
          | inr x => (with_root d (in_fields d (set_text_named key x)), inr tt)
          end
      end
  | inr None =>
      match infer_new value with
      | inl e => (d, inl e)
      | inr (vtype, x) =>
          let nd := Elem udf_field [("type", vtype); ("name", key)] (Some x) [] in
          let add := (update_elems ;;; prepare_lookup)
                       (with_root d (in_fields d (fun cs => cs ++ [nd]))) in
          if udt_truthy (ud_udt d) then
            match get_sub_node (focus d) udf_type with
            | None => (d, inl TypeError)   (* ElementTree.SubElement(None, ...) *)
            | Some _ => add
            end
          else add
      end
  end.

(** [XmlDictionary.__setitem__(key, value)]: the [dict] entry first,
    then [_setitem]. *)
Definition setitem (key : string) (value : pyval) : PyM udf_dict unit := fun d =>
  setitem_ key value (with_items d (dict_set key value (ud_items d))).

(** [UdfDictionary._delitem(key)]: remove the first field named [key]. *)
Fixpoint remove_named (key : string) (cs : list elem) : list elem :=
  match cs with
  | [] => []
  | c :: cs' =>
      if String.eqb (e_tag c) udf_field && bool_decide (attr_lookup (e_attrib c) "name" = Some key)
      then cs' else c :: remove_named key cs'
  end.

Definition delitem_ (key : string) : PyM udf_dict unit := fun d =>
  match find_field key (elems d) with
  | inl e => (d, inl e)
  | inr (Some _) => (with_root d (in_fields d (remove_named key)), inr tt)
  | inr None => (d, inr tt)
  end.

(** Attribute lookup of a one-argument method on a [UdfDictionary]
    instance, along its MRO (UdfDictionary, Nestable, XmlDictionary,
    XmlMutable, XmlElement, dict). *)
Definition method1 (name : string) : option (string -> PyM udf_dict unit) :=
  if String.eqb name "_delitem" then Some delitem_ else None.

(** [XmlDictionary.__delitem__(key)]: [dict.__delitem__] (a [KeyError]
    when absent), then [self._del_item(key)]. The loop that follows that
    call in the source is only reached when the lookup succeeds. *)
Definition delitem (key : string) : PyM udf_dict unit := fun d =>
  if negb (dict_mem key (ud_items d)) then (d, inl KeyError)
  else
    let d1 := with_items d (dict_remove key (ud_items d)) in
    match method1 "_del_item" with
    | Some m => m key d1
    | None => (d1, inl AttributeError)
    end.

(** The [udt] property getter, [get_udt]. *)
Definition get_udt (d : udf_dict) : pyval :=
  match ud_udt d with
  | UdtTrue => PNone
  | UdtFalse => PBool false
  | UdtName n => PStr n
  end.

(** The [udt] property setter, [set_udt(name)]. *)
Definition set_udt (name : pyval) : PyM udf_dict unit := fun d =>
  match name with
  | PStr n =>
      if negb (udt_truthy (ud_udt d)) then (d, inl AttributeError)
      else
        let d1 := with_udt d (UdtName n) in
        let d2 := with_root d1 (fst (rootnode (ud_nesting d1) (ud_root d1))) in
        match get_sub_node (focus d2) udf_type with
        | None => (d2, inl AssertionError)
        | Some _ =>
            (with_root d2 (modify_nested (ud_nesting d2)
                             (fun fc => set_children fc (update_first (e_children fc) udf_type
                                                           (attr_set "name" n)))
                             (ud_root d2)), inr tt)
        end
  | _ => (d, inl AssertionError)
  end.

(** The dictionaries a program can hold when the projection was
    declared without UDT support ([UdfDictionaryDescriptor], [_UDT =
    False]): built by the constructor, then any sequence of set and delete
    operations (including ones that raised and were caught). *)
Inductive nonudt_reachable : udf_dict -> Prop :=
| reach_init (r : elem) (nesting : list string) :
    nonudt_reachable (fst (udf_init r nesting false))
| reach_set (k : string) (v : pyval) (d : udf_dict) :
    nonudt_reachable d -> nonudt_reachable (fst (setitem k v d))
| reach_del (k : string) (d : udf_dict) :
    nonudt_reachable d -> nonudt_reachable (fst (delitem k d)).

End Udf.

(* ------------------------------------------------------------------ *)
(** ** Entities: identity cache, [get], [create] (entities.py) *)

Module Entities.

(** An entity class: its name and its [_URI] class attribute. *)
Record klass := Klass { cls_name : string; cls_URI : option string }.

(** The attributes an [Entity] instance may carry. [o_lims] is
    [hasattr(self, 'lims')]; [o_uri] is the [_uri] attribute ([None]
    when not set yet); [o_root] is [self.root]. *)
Record obj := Obj {
  o_cls : klass;
  o_lims : bool;
  o_uri : option (option string);
  o_root : option elem
}.

Abbreviation loc := nat (only parsing).

(** The process state: [lims.cache] (uri -> instance), the object heap,
    the next free address and the log of the URIs [lims.get] fetched. *)
Record world := World {
  cache : gmap string loc;
  heap : gmap loc obj;
  next_loc : loc;
  fetches : list (option string)
}.

(** [isinstance(obj, cls)] for an object of class [oc]: every entity
    class of entities.py derives directly from [Entity]. *)
Definition is_subclass (oc c : string) : bool :=
  String.eqb oc c || String.eqb c "Entity".

Section Entity.

(** The [Lims] collaborator (lims.py is not part of this source tree):
    [lims.get_uri(segment, id)], [lims.get_uri(segment)], [lims.get(uri)],
    [lims.post(uri, data)]. *)
Variable get_uri : option string -> string -> string.
Variable get_uri_base : option string -> string.
Variable lims_get : option string -> elem.
Variable lims_post : string -> elem -> elem.

(** [lims.cache[uri]]: [__init__] only ever stores string keys, so a
    lookup under [None] misses. *)
Definition cache_lookup (w : world) (uri : option string) : option loc :=
  match uri with
  | Some u => cache w !! u
  | None => None
  end.

Definition alloc (o : obj) : PyM world loc := fun w =>
  let l := next_loc w in
  (World (cache w) (<[l := o]> (heap w)) (S l) (fetches w), inr l).

Definition load (l : loc) : PyM world obj := fun w =>
  match heap w !! l with
  | Some o => (w, inr o)
  | None => (w, inl AttributeError)
  end.

Definition store (l : loc) (o : obj) : PyM world unit := fun w =>
  (World (cache w) (<[l := o]> (heap w)) (next_loc w) (fetches w), inr tt).

Definition cache_set (u : string) (l : loc) : PyM world unit := fun w =>
  (World (<[u := l]> (cache w)) (heap w) (next_loc w) (fetches w), inr tt).

(** [Entity.__new__(cls, lims, uri, id, _create_new)] *)
Definition entity_new (c : klass) (uri id : option string) (create_new : bool)
  : PyM world loc :=
  let uri_r :=
    if truthy uri then inr uri
    else if truthy id then
      match id with Some i => inr (Some (get_uri (cls_URI c) i)) | None => inr uri end
    else if create_new then inr uri
    else inl ValueError in
  match uri_r with
  | inl e => raise e
  | inr uri' =>
      w <-- get_st ;;
      match cache_lookup w uri' with
      | Some l => ret l
      | None => alloc (Obj c false None None)
      end
  end.

(** [Entity.__init__(self, lims, uri, id, _create_new)] *)
Definition entity_init (c : klass) (self : loc) (uri id : option string)
  (create_new : bool) : PyM world unit :=
  if negb (truthy uri || truthy id || create_new) then raise AssertionError
  else
    o <-- load self ;;
    if negb create_new then
      if o_lims o then ret tt
      else
        let u := if truthy uri then uri
                 else match id with
                      | Some i => Some (get_uri (cls_URI c) i)
                      | None => uri
                      end in
        match u with
        | Some k =>
            cache_set k self ;;;
            store self (Obj (o_cls o) true (Some u) None)
        | None => raise TypeError
        end
    else store self (Obj (o_cls o) true (Some uri) None).

(** The [uri] property: [self._uri], or the class attribute [_URI] when
    [_uri] was never set. *)
Definition obj_uri (o : obj) : option string :=
  match o_uri o with Some u => u | None => cls_URI (o_cls o) end.

(** The rest of [ReagentType.__init__] after its [super().__init__]
    call: [assert self.uri is not None], then [self.root =
    lims.get(self.uri)], run also when [Entity.__init__] returned early
    on a cached instance. The [sequence] attribute it then reads off the
    new root (a loop of [findall] and [attrib.get], which cannot raise)
    is not kept: nothing here reads it. *)
Definition reagent_type_refetch (self : loc) : PyM world unit :=
  o <-- load self ;;
  match obj_uri o with
  | None => raise AssertionError
  | Some _ =>
      fun w =>
        (World (cache w) (<[self := Obj (o_cls o) (o_lims o) (o_uri o)
                                         (Some (lims_get (obj_uri o)))]> (heap w))
               (next_loc w) (fetches w ++ [obj_uri o]), inr tt)
  end.

(** [cls.__init__]: [ReagentType] (entities.py) defines its own
    [__init__(self, lims, uri=None, id=None)], which takes no
    [_create_new] keyword ([TypeError]); every other entity class
    inherits [Entity.__init__]. *)
Definition init (c : klass) (self : loc) (uri id : option string) (create_new : bool)
  : PyM world unit :=
  if String.eqb (cls_name c) "ReagentType" then
    if create_new then raise TypeError
    else entity_init c self uri id false ;;; reagent_type_refetch self
  else entity_init c self uri id create_new.

(** [cls(lims, uri=..., id=..., _create_new=...)]: [__new__], then,
    when the returned object is an instance of [cls], the [__init__] of
    its own class ([type.__call__] initialises through
    [type(obj).__init__]). *)
Definition construct (c : klass) (uri id : option string) (create_new : bool)
  : PyM world loc :=
  l <-- entity_new c uri id create_new ;;
  o <-- load l ;;
  if is_subclass (cls_name (o_cls o)) (cls_name c)
  then init (o_cls o) l uri id create_new ;;; ret l
  else ret l.

(** [Entity.get(self, force=False)] *)
Definition entity_get (self : loc) (force : bool) : PyM world unit :=
  o <-- load self ;;
  if negb force && bool_decide (o_root o <> None) then ret tt
  else
    let uri := obj_uri o in
    fun w =>
      (World (cache w) (<[self := Obj (o_cls o) (o_lims o) (o_uri o)
                                       (Some (lims_get uri))]> (heap w))
             (next_loc w) (fetches w ++ [uri]), inr tt).

(** Write [self.root] (an in-memory mutation through a handle). *)
Definition write_root (self : loc) (r : elem) (w : world) : world :=
  match heap w !! self with
  | Some o => World (cache w) (<[self := Obj (o_cls o) (o_lims o) (o_uri o) (Some r)]> (heap w))
                    (next_loc w) (fetches w)
  | None => w
  end.

Definition read_root (self : loc) (w : world) : option elem :=
  match heap w !! self with Some o => o_root o | None => None end.



(** The URI a construction by [uri]/[id] resolves to (the key [__new__]
    looks up). *)
Definition resolve (c : klass) (uri id : option string) : option string :=
  if truthy uri then uri
  else if truthy id then
    match id with Some i => Some (get_uri (cls_URI c) i) | None => None end
  else None.

End Entity.

End Entities.

(* ------------------------------------------------------------------ *)
(** ** More descriptors (descriptors.py) *)

Module MoreDescriptors.
Import Scalar.

(** [BooleanDescriptor.__get__]: [text.lower() == 'true'], [None] for a
    missing node or a node without text. *)
Definition boolean_get (tag : string) (root : elem) : option bool :=
  match string_get tag root with
  | None => None
  | Some t => Some (String.eqb (py_lower t) "true")
  end.

(** [BooleanDescriptor.__set__(instance, value)] for a [bool] value:
    [StringDescriptor.__set__] of [str(value).lower()]. *)
Definition boolean_set (tag : string) (root : elem) (b : bool) : elem :=
  string_set tag root (AStr (py_lower (Udf.py_str_bool b))).

(** [StringAttributeDescriptor.__get__]: [instance.root.attrib[tag]]. *)
Definition string_attr_get (tag : string) (root : elem) : exn + string :=
  match attr_lookup (e_attrib root) tag with
  | Some v => inr v
  | None => inl KeyError
  end.

(** [StringAttributeDescriptor.__set__] for a [str] value:
    [instance.root.attrib[tag] = value]. *)
Definition string_attr_set (tag v : string) (root : elem) : elem :=
  Udf.attr_set tag v root.

End MoreDescriptors.

(* ------------------------------------------------------------------ *)
(** ** [XmlDictionary.clear] on a [UdfDictionary] *)

Module UdfMore.
Import Udf.

(** [dict.__getitem__] ([None]: [KeyError]). *)
Fixpoint dict_get (it : list (string * pyval)) (k : string) : option pyval :=
  match it with
  | [] => None
  | (k', v) :: r => if String.eqb k k' then Some v else dict_get r k
  end.

(** [XmlDictionary.clear]: [dict.clear(self)], then
    [self.rootnode(self.instance).remove(elem)] for each of [self._elems],
    then [_update_elems]. Outside UDT mode the elements are the field
    children of the node [rootnode] reaches, and all are removed. In UDT
    mode they are children of its [udf:type] child, so the first
    [remove] does not find its argument among the children of that node
    and raises [ValueError]. *)
Definition clear : PyM udf_dict unit := fun d =>
  let d1 := with_items d [] in
  if udt_truthy (ud_udt d) then
    match elems d with
    | [] => update_elems d1
    | _ :: _ => (d1, inl ValueError)
    end
  else
    update_elems
      (with_root d1 (in_fields d1 (filter (fun c => negb (String.eqb (e_tag c) udf_field))))).

End UdfMore.

(* ------------------------------------------------------------------ *)
(** ** [XmlList.__add__] *)

Module XmlListMore.
Import XmlListModel.

Section Add.
Variable item : Type.
Variable node_attrs : item -> list (string * string).
Variable tag : string.
Variable keys : list string.

(** [XmlList.__add__(other_list)]: the nodes are appended and [_elems]
    rescanned; [list.__add__] returns a new list and leaves [self]. *)
Definition add (vs : list item) : PyM (xl item) (list item) :=
  additems item node_attrs tag keys vs ;;; update_elems item tag keys ;;;
  (fun s => (s, inr (xl_items s ++ vs))).

End Add.

End XmlListMore.

(* ------------------------------------------------------------------ *)
(** ** More of [Process] and [Artifact] (entities.py) *)

Module ProcessMore.
Import ProcessModel.

(** [[io[1]['limsid'] for io in self.input_output_maps if io[1] is not None]] *)
Fixpoint output_ids (ios : list (option pdict * option pdict)) : exn + list string :=
  match ios with
  | [] => inr []
  | (_, None) :: r => output_ids r
  | (_, Some d) :: r =>
      match pdict_get d "limsid" with
      | None => inl KeyError
      | Some id => match output_ids r with inl e => inl e | inr ids => inr (id :: ids) end
      end
  end.

Section AllOutputs.
(** The iteration order of [list(frozenset(ids))]. *)
Variable frozen : list string -> list string.

(** [Process.all_outputs(unique, resolve=False)]: the limsids of the
    returned [Artifact]s, built as in [all_inputs]. *)
Definition all_outputs (unique : bool) (root : elem) : exn + list string :=
  match input_output_maps root with
  | inl e => inl e
  | inr ios =>
      match output_ids ios with
      | inl e => inl e
      | inr ids => artifacts_of_ids (if unique then frozen ids else ids)
      end
  end.

End AllOutputs.

(** [[x for x in l if p(x)]] and [[f(x) for x in l]] where evaluating
    [p] or [f] may raise: the first exception, in list order, escapes. *)
Fixpoint filter_ex {A} (p : A -> exn + bool) (l : list A) : exn + list A :=
  match l with
  | [] => inr []
  | x :: r =>
      match p x with
      | inl e => inl e
      | inr b => match filter_ex p r with
                 | inl e => inl e
                 | inr r' => inr (if b then x :: r' else r')
                 end
      end
  end.

Fixpoint map_ex {A B} (f : A -> exn + B) (l : list A) : exn + list B :=
  match l with
  | [] => inr []
  | x :: r =>
      match f x with
      | inl e => inl e
      | inr y => match map_ex f r with
                 | inl e => inl e
                 | inr r' => inr (y :: r')
                 end
      end
  end.

(** [d[key]] on [d = io[0]] or [d = io[1]]: subscripting [None] is a
    [TypeError], a missing key a [KeyError]. *)
Definition subscript (d : option pdict) (key : string) : exn + string :=
  match d with
  | None => inl TypeError
  | Some d' => match pdict_get d' key with
               | Some v => inr v
               | None => inl KeyError
               end
  end.

(** [Process.outputs_per_input(inart, ResultFile, SharedResultFile,
    Analyte)] over [self.input_output_maps] ([ios]): the maps whose
    input has the limsid [inart], optionally only those whose output has
    the given [output-type], then the [uri] of their outputs. *)
Definition outputs_per_input (inart : string) (result_file shared_result_file analyte : bool)
    (ios : list (option pdict * option pdict)) : exn + list string :=
  let by_type (t : string) (l : list (option pdict * option pdict)) :=
    filter_ex (fun io => match subscript (snd io) "output-type" with
                         | inl e => inl e
                         | inr ty => inr (String.eqb ty t)
                         end) l in
  match filter_ex (fun io => match subscript (fst io) "limsid" with
                             | inl e => inl e
                             | inr lid => inr (String.eqb lid inart)
                             end) ios with
  | inl e => inl e
  | inr inouts =>
      match (if result_file then by_type "ResultFile" inouts
             else if shared_result_file then by_type "SharedResultFile" inouts
             else if analyte then by_type "Analyte" inouts
             else inr inouts) with
      | inl e => inl e
      | inr inouts' => map_ex (fun io => subscript (snd io) "uri") inouts'
      end
  end.

(** The loop of [Artifact.input_artifact_list] from the list [acc]
    built so far: [tuple[1]['limsid']] ([TypeError] on [None],
    [KeyError] when missing), compared with [self.id], then
    [tuple[0]['uri']] appended. The bare [except: pass] ends the loop
    at the first error and keeps what was appended. *)
Fixpoint collect_inputs (self_id : string) (ios : list (option pdict * option pdict))
    (acc : list string) : list string :=
  match ios with
  | [] => acc
  | (i, o) :: r =>
      match o with
      | None => acc
      | Some od =>
          match pdict_get od "limsid" with
          | None => acc
          | Some lid =>
              if String.eqb lid self_id then
                match i with
                | None => acc
                | Some id_ => match pdict_get id_ "uri" with
                              | None => acc
                              | Some u => collect_inputs self_id r (acc ++ [u])
                              end
                end
              else collect_inputs self_id r acc
          end
      end
  end.

(** [Artifact.input_artifact_list()]: [maps] is the outcome of
    [self.parent_process.input_output_maps] (an error there is also
    swallowed); [self_id] is [self.id]. *)
Definition input_artifact_list (self_id : string)
    (maps : exn + list (option pdict * option pdict)) : list string :=
  match maps with
  | inl _ => []
  | inr ios => collect_inputs self_id ios []
  end.

End ProcessMore.

(* ------------------------------------------------------------------ *)
(** ** [PlacementDictionary] (descriptors.py) *)

Module Placement.

(** The projection over [instance.root] ([XmlElement.rootnode]): the
    document, [self._elems] and the [dict] from the text of the [value]
    child ([None] when it has no text) to the artifact's [uri]. *)
Record pd := PD {
  pd_root : elem;
  pd_elems : list elem;
  pd_items : list (option string * string)
}.

Fixpoint pd_set (k : option string) (v : string) (it : list (option string * string)) :=
  match it with
  | [] => [(k, v)]
  | (k', v') :: r => if bool_decide (k = k') then (k, v) :: r else (k', v') :: pd_set k v r
  end.

Fixpoint pd_get (it : list (option string * string)) (k : option string) : option string :=
  match it with
  | [] => None
  | (k', v) :: r => if bool_decide (k = k') then Some v else pd_get r k
  end.

(** [PlacementDictionary._parse_element]: [None.text] is an
    [AttributeError], a missing [uri] a [KeyError], an empty one the
    [ValueError] of [Artifact(lims, uri='')]. *)
Definition parse_placement (e : elem) (it : list (option string * string))
  : exn + list (option string * string) :=
  match get_sub_node e "value" with
  | None => inl AttributeError
  | Some v => match attr_lookup (e_attrib e) "uri" with
              | None => inl KeyError
              | Some u => if String.eqb u "" then inl ValueError
                          else inr (pd_set (e_text v) u it)
              end
  end.

Fixpoint parse_placements (es : list elem) (it : list (option string * string))
  : exn + list (option string * string) :=
  match es with
  | [] => inr it
  | e :: es' => match parse_placement e it with
                | inl x => inl x
                | inr it' => parse_placements es' it'
                end
  end.

(** [PlacementDictionary(instance)]: [_update_elems], [_prepare_lookup]. *)
Definition placement_init (root : elem) : pd * (exn + unit) :=
  let es := get_sub_nodes root "placement" in
  match parse_placements es [] with
  | inl x => (PD root es [], inl x)
  | inr it => (PD root es it, inr tt)
  end.

(** [placements[key] = artifact] for a [str] key and an artifact given
    by its [uri] and [id]: [dict.__setitem__], then [_setitem], which
    appends [<placement uri=.. limsid=..><value>key</value></placement>]
    to the root; [_elems] is not rescanned. *)
Definition placement_setitem (key uri id : string) (s : pd) : pd * (exn + unit) :=
  let node := Elem "placement" [("uri", uri); ("limsid", id)] None
                [Elem "value" [] (Some key) []] in
  (PD (append_child (pd_root s) node) (pd_elems s) (pd_set (Some key) uri (pd_items s)),
   inr tt).

End Placement.

(* ------------------------------------------------------------------ *)
(** ** Concrete collaborators for the worked examples *)

Module Fixtures.
Import Entities.

Definition api : string := "http://lims/api/v2/".

Definition get_uri (seg : option string) (id : string) : string :=
  (api ++ default "" seg ++ "/" ++ id)%string.


(** A server that answers a GET with an empty document and a POST with
    the payload's tag and a [uri] attribute for the new resource. *)
Definition lims_get (uri : option string) : elem := new_elem "response".


Definition Sample : klass := Klass "Sample" (Some "samples").



End Fixtures.

Module UdfFixtures.
Import Udf.

Definition fld (ty nm txt : string) : elem :=
  Elem udf_field [("type", ty); ("name", nm)] (Some txt) [].

(** The document of the repository's [TestUdfDictionary]. *)
Definition doc1 : elem :=
  Elem "test-entry" [] None
    [fld "String" "test" "stuff"; fld "Numeric" "how much" "42";
     fld "Boolean" "really?" "true"].

Definition dict1 : udf_dict := fst (udf_init doc1 [] false).

End UdfFixtures.

(* ================================================================== *)
(** * Properties *)

Module EntityFacts.
Import Entities.

Section Facts.
Variable get_uri : option string -> string -> string.
Variable get_uri_base : option string -> string.
Variable lims_get : option string -> elem.
Variable lims_post : string -> elem -> elem.

Lemma bind_ok {S A B} (m : PyM S A) (k : A -> PyM S B) (s s' : S) (a : A) :
  m s = (s', inr a) -> bind m k s = k a s'.
Proof. unfold bind. intros ->. reflexivity. Qed.

(** [rewrite] does not reach a lookup scrutinised by the monadic
    [match]es; case on it instead. *)
Ltac rw_some H :=
  lazymatch type of H with
  | ?a = Some ?v =>
      let E := fresh "E" in
      destruct a eqn:E; [injection H as ->; rename E into H | discriminate H]
  end.

Ltac rw_ins :=
  match goal with
  | |- context [ (<[?i := ?x]> ?m) !! ?i ] =>
      let H := fresh in pose proof (lookup_insert_eq m i x) as H; rw_some H; clear H
  end.




Lemma resolve_truthy (c : klass) (uri id : option string) (u : string) :
  resolve get_uri c uri id = Some u -> truthy uri || truthy id = true.
Proof.
  unfold resolve. destruct (truthy uri); [reflexivity|].
  destruct (truthy id); [reflexivity|]. discriminate.
Qed.

Lemma entity_new_resolved (c : klass) (uri id : option string) (u : string) (w : world) :
  resolve get_uri c uri id = Some u ->
  entity_new get_uri c uri id false w =
    match cache w !! u with
    | Some l => (w, inr l)
    | None => alloc (Obj c false None None) w
    end.
Proof.
  unfold resolve, entity_new, bind, get_st, ret.
  destruct (truthy uri) eqn:Hu.
  - intros ->. simpl. destruct (cache w !! u); reflexivity.
  - destruct (truthy id) eqn:Hi; [|discriminate].
    destruct id as [i|]; [|discriminate]. intros [= <-].
    simpl. destruct (cache w !! _); reflexivity.
Qed.


Lemma load_ok (l : loc) (o : obj) (w : world) :
  heap w !! l = Some o -> load l w = (w, inr o).
Proof. unfold load. intros H. rw_some H. reflexivity. Qed.


(** [Entity.__init__] on an initialised instance returns at once. *)
Lemma entity_init_early (c : klass) (l : loc) (uri id : option string) (w : world) (o : obj) :
  truthy uri || truthy id = true -> heap w !! l = Some o -> o_lims o = true ->
  entity_init get_uri c l uri id false w = (w, inr tt).
Proof.
  intros Ht Hh Hl. unfold entity_init. rewrite Ht. simpl.
  rewrite (bind_ok _ _ w w o (load_ok l o w Hh)). simpl. rewrite Hl. reflexivity.
Qed.




Lemma construct_hit (c : klass) (uri id : option string) (u : string) (w : world)
  (l : loc) (o : obj) :
  resolve get_uri c uri id = Some u ->
  cache w !! u = Some l -> heap w !! l = Some o ->
  (o_lims o = true /\ String.eqb (cls_name (o_cls o)) "ReagentType" = false)
  \/ is_subclass (cls_name (o_cls o)) (cls_name c) = false ->
  construct get_uri lims_get c uri id false w = (w, inr l).
Proof.
  intros Hr Hc Hh Ho. unfold construct.
  rewrite (bind_ok _ _ w w l); [|rewrite (entity_new_resolved c uri id u w Hr); rw_some Hc; reflexivity].
  rewrite (bind_ok _ _ w w o (load_ok l o w Hh)).
  destruct (is_subclass (cls_name (o_cls o)) (cls_name c)) eqn:Hs; [|reflexivity].
  destruct Ho as [[Hl Hrt]|Hn]; [|congruence].
  unfold init. rewrite Hrt.
  rewrite (bind_ok _ _ w w tt); [reflexivity|].
  exact (entity_init_early (o_cls o) l uri id w o (resolve_truthy c uri id u Hr) Hh Hl).
Qed.





Lemma write_root_read (l : loc) (r : elem) (w : world) (o : obj) :
  heap w !! l = Some o ->
  heap (write_root l r w) !! l = Some (Obj (o_cls o) (o_lims o) (o_uri o) (Some r)).
Proof. unfold write_root. intros ->. simpl. apply lookup_insert_eq. Qed.


(** Claim C2: [get()] without [force] on an entity whose root is loaded
    changes nothing and fetches nothing; on an unfetched entity the first
    call fetches once (its URI is logged once and the response becomes
    the root) and a second call is then a no-op. *)
Theorem get_idempotent (l : loc) (w : world) (o : obj) :
  heap w !! l = Some o ->
  (o_root o <> None -> entity_get lims_get l false w = (w, inr tt)) /\
  (o_root o = None ->
     exists w1,
       entity_get lims_get l false w = (w1, inr tt) /\
       fetches w1 = fetches w ++ [obj_uri o] /\
       read_root l w1 = Some (lims_get (obj_uri o)) /\
       entity_get lims_get l false w1 = (w1, inr tt)).
Proof.
  intros Hh. split.
  - intros Hr. unfold entity_get.
    rewrite (bind_ok _ _ w w o (load_ok l o w Hh)).
    rewrite bool_decide_eq_true_2 by exact Hr. reflexivity.
  - intros Hr. unfold entity_get.
    rewrite (bind_ok _ _ w w o (load_ok l o w Hh)).
    rewrite bool_decide_eq_false_2 by (intros Hn; apply Hn; exact Hr).
    set (o1 := Obj (o_cls o) (o_lims o) (o_uri o) (Some (lims_get (obj_uri o)))).
    set (w1 := World (cache w) (<[l := o1]> (heap w)) (next_loc w) (fetches w ++ [obj_uri o])).
    assert (H1 : heap w1 !! l = Some o1) by apply lookup_insert_eq.
    exists w1. split; [reflexivity|]. split; [reflexivity|].
    split; [unfold read_root; rw_some H1; reflexivity|].
    rewrite (bind_ok _ _ w1 w1 o1 (load_ok l o1 w1 H1)).
    rewrite bool_decide_eq_true_2 by discriminate. reflexivity.
Qed.




End Facts.
Import Fixtures.

Definition uS1 : string := "http://lims/api/v2/samples/S1".




Definition unfetched : obj := Obj Sample true (Some (Some uS1)) None.
Definition one_world : world := World {[uS1 := 0]} {[0 := unfetched]} 1 [].

(** Witness of C2: an unfetched [Sample]. *)
Lemma get_idempotent_witness :
  heap one_world !! 0 = Some unfetched /\
  (o_root unfetched <> None -> entity_get Fixtures.lims_get 0 false one_world = (one_world, inr tt)) /\
  (o_root unfetched = None ->
     exists w1,
       entity_get Fixtures.lims_get 0 false one_world = (w1, inr tt) /\
       fetches w1 = fetches one_world ++ [obj_uri unfetched] /\
       read_root 0 w1 = Some (Fixtures.lims_get (obj_uri unfetched)) /\
       entity_get Fixtures.lims_get 0 false w1 = (w1, inr tt)).
Proof.
  assert (H : heap one_world !! 0 = Some unfetched) by reflexivity.
  split; [exact H|]. exact (get_idempotent Fixtures.lims_get 0 one_world unfetched H).
Defined.



End EntityFacts.

Module UdfFacts.
Import Udf UdfFixtures.

(** The repository's [test___setitem__] scenarios, replayed. *)
Example setitem_numeric_example :
  ud_root (fst (setitem "how much" (PInt 21) dict1))
  = Elem "test-entry" [] None
      [fld "String" "test" "stuff"; fld "Numeric" "how much" "21";
       fld "Boolean" "really?" "true"].
Proof. reflexivity. Qed.

Example setitem_mismatch_example :
  snd (setitem "how much" (PStr "433") dict1) = inl TypeError.
Proof. reflexivity. Qed.

(** Claim C4: deleting a present key takes the key out of the [dict] and
    then fails with [AttributeError] ([self._del_item] does not exist),
    before any element is removed; deleting an absent key raises
    [KeyError] and changes nothing. *)
Theorem delitem_behaviour (d : udf_dict) (key : string) :
  delitem key d =
    if dict_mem key (ud_items d)
    then (with_items d (dict_remove key (ud_items d)), inl AttributeError)
    else (d, inl KeyError).
Proof. unfold delitem. destruct (dict_mem key (ud_items d)); reflexivity. Qed.

(** Claim C3: on the document of [TestUdfDictionary] the three fields
    match the three keys; deleting ["test"] leaves two keys over three
    field elements, and setting a new key to a value of no supported
    type leaves four keys over three elements. *)
Theorem udf_count_invariant_fails :
  snd (udf_init doc1 [] false) = inr tt /\
  length (ud_items dict1) = 3 /\ length (elems dict1) = 3 /\
  snd (delitem "test" dict1) = inl AttributeError /\
  length (ud_items (fst (delitem "test" dict1))) = 2 /\
  length (elems (fst (delitem "test" dict1))) = 3 /\
  snd (setitem "new" POther dict1) = inl NotImplementedError /\
  length (ud_items (fst (setitem "new" POther dict1))) = 4 /\
  length (elems (fst (setitem "new" POther dict1))) = 3.
Proof. vm_compute. repeat split. Qed.

Lemma parse_all_udt (es : list elem) (d : udf_dict) :
  ud_udt (fst (parse_all es d)) = ud_udt d.
Proof.
  revert d. induction es as [|e es IH]; intros d; [reflexivity|].
  simpl. unfold bind, parse_element.
  destruct (attr_lookup (e_attrib e) "type"); [|reflexivity].
  destruct (parse_value _ _); [reflexivity|].
  destruct (attr_lookup (e_attrib e) "name"); [|reflexivity].
  rewrite IH. reflexivity.
Qed.

Lemma rescan_udt_false (d : udf_dict) :
  ud_udt d = UdtFalse -> ud_udt (fst ((update_elems ;;; prepare_lookup) d)) = UdtFalse.
Proof.
  intros H. unfold bind, update_elems. rewrite H. simpl.
  unfold prepare_lookup. rewrite parse_all_udt. simpl. exact H.
Qed.

Lemma setitem_udt_false (k : string) (v : pyval) (d : udf_dict) :
  ud_udt d = UdtFalse -> ud_udt (fst (setitem k v d)) = UdtFalse.
Proof.
  intros H. unfold setitem, setitem_. simpl.
  destruct (find_field k _) as [e|[node|]]; [exact H| |].
  - destruct (attr_lookup (e_attrib node) "type"); [|exact H].
    destruct (encode_existing _ v); exact H.
  - destruct (infer_new v) as [e|[vtype x]]; [exact H|].
    rewrite H. simpl. apply rescan_udt_false. exact H.
Qed.

Lemma nonudt_reachable_flag (d : udf_dict) :
  nonudt_reachable d -> ud_udt d = UdtFalse.
Proof.
  induction 1 as [r n|k v d _ IH|k d _ IH].
  - unfold udf_init. apply rescan_udt_false. reflexivity.
  - apply setitem_udt_false. exact IH.
  - rewrite delitem_behaviour. destruct (dict_mem k (ud_items d)); exact IH.
Qed.

(** Claim C5, amended: on a UDF dictionary declared without UDT support,
    reading [udt] returns [False] (the stored flag), and assigning it
    fails ([AttributeError] for a string, [AssertionError] otherwise)
    with the dictionary and the document unchanged. *)
Theorem udt_unsupported (d : udf_dict) :
  nonudt_reachable d ->
  get_udt d = PBool false /\
  forall name : pyval,
    set_udt name d = (d, inl (match name with PStr _ => AttributeError | _ => AssertionError end)).
Proof.
  intros Hr. pose proof (nonudt_reachable_flag d Hr) as H.
  unfold get_udt, set_udt. rewrite H. split; [reflexivity|].
  intros [] ; reflexivity.
Qed.

Lemma udt_unsupported_witness :
  nonudt_reachable dict1 /\
  get_udt dict1 = PBool false /\
  forall name : pyval,
    set_udt name dict1 = (dict1, inl (match name with PStr _ => AttributeError | _ => AssertionError end)).
Proof.
  assert (H : nonudt_reachable dict1) by apply reach_init.
  split; [exact H|]. exact (udt_unsupported dict1 H).
Defined.

(** Counterexample to C5 as stated: reading [udt] on the plain UDF
    dictionary of [TestUdfDictionary] gives [False], not [None]. *)
Lemma get_udt_none_counterexample : get_udt dict1 <> PNone.
Proof. vm_compute. discriminate. Qed.

End UdfFacts.

(* ------------------------------------------------------------------ *)
(** ** Reads through [Nestable.rootnode] *)

Module NestedFacts.
Import Nested.

Lemma rootnode_fresh (r : list string) (k : string) :
  rootnode r (new_elem k) = (chain k r, new_elem (deepest k r)).
Proof.
  revert k. induction r as [|k2 r IH]; intros k; [reflexivity|].
  cbn [rootnode]. unfold get_sub_node at 1. cbn. rewrite IH. reflexivity.
Qed.

Lemma update_first_const (cs : list elem) (t : string) (c : elem) (g : elem -> elem) :
  first_with_tag cs t = Some c ->
  update_first cs t (fun _ => g c) = update_first cs t g.
Proof.
  induction cs as [|c' cs IH]; cbn; [discriminate|].
  destruct (String.eqb (e_tag c') t).
  - intros H; injection H as ->. reflexivity.
  - intros H. rewrite (IH H). reflexivity.
Qed.

Lemma first_with_tag_update (cs : list elem) (t : string) (c : elem) (g : elem -> elem) :
  first_with_tag cs t = Some c -> e_tag (g c) = e_tag c ->
  first_with_tag (update_first cs t g) t = Some (g c).
Proof.
  induction cs as [|c' cs IH]; cbn; [discriminate|].
  destruct (String.eqb (e_tag c') t) eqn:E.
  - intros H Hg; injection H as ->. cbn. rewrite Hg, E. reflexivity.
  - intros H Hg. cbn. rewrite E. exact (IH H Hg).
Qed.

Lemma first_with_tag_tag (cs : list elem) (t : string) (c : elem) :
  first_with_tag cs t = Some c -> e_tag c = t.
Proof.
  induction cs as [|c' cs IH]; cbn; [discriminate|].
  destruct (String.eqb (e_tag c') t) eqn:E.
  - intros H; injection H as <-. now apply String.eqb_eq.
  - exact IH.
Qed.

Lemma first_with_tag_app_none (cs : list elem) (t : string) (c : elem) :
  first_with_tag cs t = None -> e_tag c = t ->
  first_with_tag (cs ++ [c]) t = Some c.
Proof.
  induction cs as [|c' cs IH]; cbn.
  - intros _ ->. rewrite String.eqb_refl. reflexivity.
  - destruct (String.eqb (e_tag c') t); [discriminate|exact IH].
Qed.

Lemma modify_nested_tag (q : list string) (f : elem -> elem) (n : elem) :
  (forall m, e_tag (f m) = e_tag m) ->
  e_tag (modify_nested q f n) = e_tag n.
Proof.
  intros Hf. destruct q as [|k q]; cbn; [apply Hf|].
  destruct (get_sub_node n k); destruct n; reflexivity.
Qed.

Lemma follow_app (q ks : list string) (n : elem) :
  follow (q ++ ks) n = match follow q n with Some m => follow ks m | None => None end.
Proof.
  revert n. induction q as [|k q IH]; intros n; [reflexivity|].
  cbn. destruct (get_sub_node n k); [apply IH|reflexivity].
Qed.

Lemma follow_modify (q : list string) (f : elem -> elem) (n m : elem) :
  (forall m, e_tag (f m) = e_tag m) ->
  follow q n = Some m -> follow q (modify_nested q f n) = Some (f m).
Proof.
  intros Hf. revert n. induction q as [|k q IH]; intros n.
  - cbn. intros H; injection H as ->. reflexivity.
  - cbn. destruct (get_sub_node n k) as [ch|] eqn:Hs; [|discriminate].
    intros H. unfold get_sub_node in *.
    assert (Hc : e_children (set_children n (update_first (e_children n) k (modify_nested q f)))
                 = update_first (e_children n) k (modify_nested q f)) by (destruct n; reflexivity).
    rewrite Hc, (first_with_tag_update _ _ ch); [exact (IH ch H)|exact Hs|].
    apply modify_nested_tag, Hf.
Qed.

Lemma parse_all_root (es : list elem) (d : Udf.udf_dict) :
  Udf.ud_root (fst (Udf.parse_all es d)) = Udf.ud_root d.
Proof.
  revert d. induction es as [|e es IH]; intros d; [reflexivity|].
  cbn [Udf.parse_all]. unfold bind, Udf.parse_element.
  destruct (attr_lookup (e_attrib e) "type"); [|reflexivity].
  destruct (Udf.parse_value _ _); [reflexivity|].
  destruct (attr_lookup (e_attrib e) "name"); [|reflexivity].
  rewrite IH. reflexivity.
Qed.

Lemma update_elems_root (d : Udf.udf_dict) :
  Udf.ud_root (fst (Udf.update_elems d)) = fst (rootnode (Udf.ud_nesting d) (Udf.ud_root d)).
Proof.
  unfold Udf.update_elems. destruct (Udf.udt_truthy _); [|reflexivity].
  destruct (get_sub_node _ _); [|reflexivity].
  destruct (attr_lookup _ _); reflexivity.
Qed.

(** [rootnode] on a path that exists. *)
Lemma rootnode_present (p : list string) (n m : elem) :
  follow p n = Some m -> rootnode p n = (n, m).
Proof.
  revert n. induction p as [|k p IH]; intros n; cbn.
  - intros H; injection H as ->. reflexivity.
  - destruct (get_sub_node n k) as [ch|] eqn:Hs; [|discriminate].
    intros H. rewrite (IH ch H). f_equal.
    unfold get_sub_node in Hs. destruct n as [t a x cs]. cbn in *. f_equal.
    clear -Hs. induction cs as [|c cs IHc]; cbn in *; [reflexivity|].
    destruct (String.eqb (e_tag c) k); [congruence|]. f_equal. exact (IHc Hs).
Qed.

(** [rootnode] on a path whose prefix [q] exists and whose next element
    [k] is missing. *)
Lemma rootnode_missing (q r : list string) (k : string) (n m : elem) :
  follow q n = Some m -> get_sub_node m k = None ->
  rootnode (q ++ k :: r) n
  = (modify_nested q (fun m => append_child m (chain k r)) n, new_elem (deepest k r)).
Proof.
  revert n. induction q as [|k0 q IH]; intros n.
  - cbn. intros H; injection H as ->. intros Hk. rewrite Hk, rootnode_fresh. reflexivity.
  - cbn. destruct (get_sub_node n k0) as [ch|] eqn:Hs; [|discriminate].
    intros H Hk. rewrite (IH ch H Hk). f_equal. f_equal.
    apply (update_first_const _ _ ch (modify_nested q _)). exact Hs.
Qed.

(** Claim C10: on a document where the prefix [q] of a nesting path
    exists but its next element [k] is missing, the shared walk
    [Nestable.rootnode] of every nested read appends the chain of the
    missing elements [k], then [r] in order, nested in path order, as the
    last child of the deepest existing element. The document after the
    read differs from the one before. The returned node is the fresh
    innermost element. The reads of [StringListDescriptor],
    [StringDictionaryDescriptor], [EntityList] and [AttributeList],
    [InputOutputMapList] and [UdfDictionary] all leave exactly this
    document behind. When the whole path exists, the walk leaves the
    document unchanged. *)
Theorem nested_read_mutates (tag : string) (q r : list string) (k : string) (root m : elem) :
  follow q root = Some m -> get_sub_node m k = None ->
  let root' := modify_nested q (fun m => append_child m (chain k r)) root in
  rootnode (q ++ k :: r) root = (root', new_elem (deepest k r))
  /\ follow (q ++ [k]) root = None
  /\ follow (q ++ [k]) root' = Some (chain k r)
  /\ root' <> root
  /\ fst (string_list_get tag (q ++ k :: r) root) = root'
  /\ fst (string_dict_get tag (q ++ k :: r) root) = root'
  /\ fst (tag_list_elems tag (q ++ k :: r) root) = root'
  /\ fst (iomap_nodes (q ++ k :: r) root) = root'
  /\ (forall udt, Udf.ud_root (fst (Udf.udf_init root (q ++ k :: r) udt)) = root')
  /\ (forall p n, follow p root = Some n -> rootnode p root = (root, n)).
Proof.
  intros Hq Hk root'.
  assert (Hr : rootnode (q ++ k :: r) root = (root', new_elem (deepest k r)))
    by exact (rootnode_missing q r k root m Hq Hk).
  assert (Hn : follow (q ++ [k]) root = None)
    by (rewrite follow_app, Hq; cbn; rewrite Hk; reflexivity).
  assert (Hs : follow (q ++ [k]) root' = Some (chain k r)).
  { unfold root'. rewrite follow_app.
    rewrite (follow_modify q _ root m); [|intros [t a x cs]; reflexivity|exact Hq].
    cbn. unfold get_sub_node. destruct m as [t a x cs]. cbn.
    rewrite (first_with_tag_app_none cs k (chain k r)); [reflexivity|exact Hk|].
    destruct r; reflexivity. }
  split; [exact Hr|]. split; [exact Hn|]. split; [exact Hs|].
  split; [intros E; rewrite E in Hs; congruence|].
  unfold string_list_get, string_dict_get, tag_list_elems, iomap_nodes.
  rewrite Hr. split; [reflexivity|]. split; [reflexivity|].
  split; [reflexivity|]. split; [reflexivity|]. split.
  - intros udt. unfold Udf.udf_init, bind.
    pose proof (update_elems_root
                  (Udf.UdfDict root (q ++ k :: r) (if udt then Udf.UdtTrue else Udf.UdtFalse) []))
      as Hu. cbn [Udf.ud_root Udf.ud_nesting] in Hu. rewrite Hr in Hu. cbn in Hu.
    destruct (Udf.update_elems _) as [d1 [e|u]]; cbn in Hu |- *; [exact Hu|].
    unfold Udf.prepare_lookup. rewrite parse_all_root. exact Hu.
  - intros p n; exact (rootnode_present p root n).
Qed.

(** A protocol step document without [permitted-containers]: reading
    [permittedcontainers] appends the empty container. *)
Definition step_doc : elem := Elem "protstepcnf:step" [] None [new_elem "protocol-step-index"].

Lemma nested_read_mutates_witness :
  follow [] step_doc = Some step_doc
  /\ get_sub_node step_doc "permitted-containers" = None
  /\ fst (string_list_get "container-type" ["permitted-containers"] step_doc)
     = Elem "protstepcnf:step" [] None
         [new_elem "protocol-step-index"; new_elem "permitted-containers"].
Proof.
  split; [reflexivity|]. split; [reflexivity|].
  destruct (nested_read_mutates "container-type" [] [] "permitted-containers" step_doc step_doc
              eq_refl eq_refl) as (_ & _ & _ & _ & H & _).
  exact H.
Defined.

End NestedFacts.

(* ------------------------------------------------------------------ *)
(** ** Scalar descriptors *)

Module ScalarFacts.
Import Scalar.

Fixpoint all_digits (s : string) : bool :=
  match s with
  | EmptyString => true
  | String c s' => is_digit c && all_digits s'
  end.

Lemma digit_not_special (c : Ascii.ascii) :
  is_digit c = true ->
  py_isspace c = false /\ is_char c 45 = false /\ is_char c 43 = false.
Proof. destruct c as [[] [] [] [] [] [] [] []]; cbn; intros H; first [exact (conj eq_refl (conj eq_refl eq_refl)) | discriminate H]. Qed.

Lemma string_of_uint_digits (u : Decimal.uint) : all_digits (NilZero.string_of_uint u) = true.
Proof.
  assert (H : forall v, all_digits (NilEmpty.string_of_uint v) = true)
    by (induction v; cbn; first [reflexivity|exact IHv]).
  destruct u; first [reflexivity|apply H].
Qed.

Lemma digits_us_all (s : string) : all_digits s = true -> digits_us true s = Some s.
Proof.
  induction s as [|c s IH]; [reflexivity|]. cbn. intros H.
  apply andb_prop in H as [Hc Hs]. rewrite Hc, (IH Hs). reflexivity.
Qed.

Lemma rstrip_digits (s : string) : all_digits s = true -> py_rstrip s = s.
Proof.
  induction s as [|c s IH]; [reflexivity|]. cbn. intros H.
  apply andb_prop in H as [Hc Hs]. rewrite (IH Hs).
  destruct (digit_not_special c Hc) as (Hsp & _). rewrite Hsp, andb_false_r. reflexivity.
Qed.

Lemma rstrip_cons (a : Ascii.ascii) (s : string) :
  py_rstrip s = s -> s <> EmptyString -> py_rstrip (String a s) = String a s.
Proof. intros H Hn. cbn [py_rstrip]. rewrite H. destruct s; [congruence|reflexivity]. Qed.

Lemma string_of_uint_cons (u : Decimal.uint) :
  exists c r, NilZero.string_of_uint u = String c r /\ is_digit c = true /\ all_digits r = true.
Proof.
  pose proof (string_of_uint_digits u) as H.
  destruct (NilZero.string_of_uint u) as [|c r] eqn:E; [destruct u; discriminate E|].
  apply andb_prop in H as [Hc Hr]. exists c, r. auto.
Qed.

Lemma py_int_of_str (z : Z) : py_int_of_string (py_str_int z) = Some z.
Proof.
  pose proof (DecimalZ.of_to z) as Hz.
  destruct z as [|p|p]; [reflexivity| |];
    unfold py_str_int, py_int_of_string in *; cbn [Z.to_int] in *;
    pose proof (DecimalPos.Unsigned.to_uint_nonnil p) as Hn;
    destruct (string_of_uint_cons (Pos.to_uint p)) as (c & r & Es & Hc & Hr);
    destruct (digit_not_special c Hc) as (Hsp & H45 & H43);
    pose proof (NilZero.usu _ Hn) as Hu; rewrite Es in Hu; cbn [NilZero.string_of_int];
    rewrite Es.
  - unfold py_strip. cbn [py_lstrip]. rewrite Hsp.
    rewrite (rstrip_digits (String c r)) by (cbn; rewrite Hc, Hr; reflexivity).
    cbn iota beta. rewrite H45, H43. cbn [digits_us]. rewrite Hc, (digits_us_all r Hr).
    cbn [option_map]. rewrite Hu. cbn [option_map]. rewrite <- Hz. reflexivity.
  - assert (Hm : py_isspace (Ascii.Ascii true false true true false true false false) = false)
      by reflexivity.
    assert (Hcr : py_rstrip (String c r) = String c r)
      by (apply rstrip_digits; cbn; rewrite Hc, Hr; reflexivity).
    unfold py_strip. cbn [py_lstrip]. rewrite Hm, (rstrip_cons _ _ Hcr) by discriminate.
    cbn iota beta zeta. change (is_char (Ascii.Ascii true false true true false true false false) 45)
      with true. cbn iota beta zeta. cbn [digits_us]. rewrite Hc, (digits_us_all r Hr).
    cbn [option_map]. rewrite Hu. cbn [option_map]. rewrite <- Hz. reflexivity.
Qed.

Lemma string_set_get (tag : string) (root : elem) (v : pyarg) :
  string_get tag (string_set tag root v) = Some (py_str v).
Proof.
  unfold string_get, string_set, get_node.
  destruct (String.eqb tag "") eqn:Et; [destruct root; reflexivity|].
  unfold get_sub_node. destruct root as [t a x cs]. cbn.
  destruct (first_with_tag cs tag) as [c|] eqn:Hc; cbn.
  - induction cs as [|c' cs IH]; cbn in Hc |- *; [discriminate|].
    destruct (String.eqb (e_tag c') tag) eqn:E.
    + destruct c'; cbn in *. rewrite E. reflexivity.
    + cbn. rewrite E. exact (IH Hc).
  - induction cs as [|c' cs IH]; cbn in Hc |- *.
    + rewrite String.eqb_refl. reflexivity.
    + destruct (String.eqb (e_tag c') tag); [discriminate|exact (IH Hc)].
Qed.

(** The repository's [TestIntegerDescriptor] document. *)
Definition count_doc : elem :=
  Elem "test-entry" [] None [Elem "count" [] (Some "32") []].

(** Claim C8: on a fetched entity, writing [n] or [str(n)] through an
    integer descriptor sets the backing text to [str(n)] and reading it
    back yields [n]; on [<test-entry><count>32</count></test-entry>]
    the descriptor reads [32], and writing [21] or ["21"] makes the
    backing text ["21"]. *)
Theorem integer_roundtrip :
  (forall (tag : string) (root : elem) (n : Z),
      string_get tag (integer_set tag root (AInt n)) = Some (py_str_int n)
      /\ integer_get tag (integer_set tag root (AInt n)) = inr (Some n)
      /\ string_get tag (integer_set tag root (AStr (py_str_int n))) = Some (py_str_int n)
      /\ integer_get tag (integer_set tag root (AStr (py_str_int n))) = inr (Some n))
  /\ integer_get "count" count_doc = inr (Some 32%Z)
  /\ integer_set "count" count_doc (AInt 21) = Elem "test-entry" [] None [Elem "count" [] (Some "21") []]
  /\ integer_set "count" count_doc (AStr "21") = Elem "test-entry" [] None [Elem "count" [] (Some "21") []].
Proof.
  split; [|split; [|split]]; [|reflexivity..].
  intros tag root n. unfold integer_get, integer_set.
  rewrite !string_set_get. cbn [py_str]. rewrite py_int_of_str.
  repeat split.
Qed.

End ScalarFacts.

(* ------------------------------------------------------------------ *)
(** ** List projections *)

Module XmlListFacts.
Import XmlListModel.

Definition na (uri : string) : elem := Elem "next-action" [("artifact-uri", uri)] None [].

(** A step-actions document with two next actions. *)
Definition actions_doc : elem :=
  Elem "stp:actions" [] None [Elem "next-actions" [] None [na "A1"; na "A2"]].

(** Claim C7: [clear()] raises [TypeError] on every list projection
    before touching the document or the list; a slice assignment raises
    [TypeError] too; and assigning at index [-1] of a two-element
    [AttributeList] leaves the sequence [[A1; X]] over the document
    order [[X; A1]] (the old element is removed, then
    [Element.insert(-1, node)] places the new one before the remaining
    one). *)
Theorem xmllist_mutators_diverge :
  (forall (item : Type) (tag : string) (keys : list string) (s : xl item),
      clear item tag keys s = (s, inl TypeError))
  /\ (forall (item : Type) (node_attrs : item -> list (string * string)) (tag : string)
             (keys : list string) (a b c : option Z) (v : item) (s : xl item),
      setitem item node_attrs tag keys (ISlice a b c) v s = (s, inl TypeError))
  /\ attr_setitem "next-action" ["next-actions"] (IInt (-1)) [("artifact-uri", "X")]
       (fst (attr_init "next-action" ["next-actions"] actions_doc))
     = (XL (Elem "stp:actions" [] None [Elem "next-actions" [] None [na "X"; na "A1"]])
           [na "X"; na "A1"]
           [[("artifact-uri", "A1")]; [("artifact-uri", "X")]],
        inr tt).
Proof.
  split; [|split].
  - intros. reflexivity.
  - intros. reflexivity.
  - vm_compute. reflexivity.
Qed.

End XmlListFacts.

(* ------------------------------------------------------------------ *)
(** ** [Process.all_inputs] *)

Module ProcessFacts.
Import ProcessModel.

(** An entry whose input has a [limsid]. *)
Definition has_input (io : option pdict * option pdict) : Prop :=
  exists d id, fst io = Some d /\ pdict_get d "limsid" = Some id.

Lemma input_ids_none (pre post : list (option pdict * option pdict)) (o : option pdict) :
  Forall has_input pre -> input_ids (pre ++ (None, o) :: post) = inl TypeError.
Proof.
  induction 1 as [|[i o'] pre (d & id & Hd & Hid) _ IH]; [reflexivity|].
  cbn in Hd |- *. subst i. rewrite Hid, IH. reflexivity.
Qed.

Lemma input_ids_ok (ios : list (option pdict * option pdict)) :
  Forall has_input ios -> exists ids, input_ids ios = inr ids.
Proof.
  induction 1 as [|[i o'] ios (d & id & Hd & Hid) _ (ids & IH)]; [eauto|].
  cbn in Hd |- *. subst i. rewrite Hid, IH. eauto.
Qed.

Lemma artifacts_of_ids_ok (ids : list string) :
  ~ In "" ids -> artifacts_of_ids ids = inr ids.
Proof.
  intros Hn. unfold artifacts_of_ids.
  destruct (existsb (String.eqb "") ids) eqn:E; [|reflexivity].
  apply existsb_exists in E as (x & Hx & Hxe). apply String.eqb_eq in Hxe. subst x. contradiction.
Qed.

Lemma artifacts_of_ids_empty (ids : list string) :
  In "" ids -> artifacts_of_ids ids = inl ValueError.
Proof.
  intros Hi. unfold artifacts_of_ids.
  replace (existsb (String.eqb "") ids) with true; [reflexivity|].
  symmetry. apply existsb_exists. exists "". split; [exact Hi|apply String.eqb_refl].
Qed.

(** Claim C9: [all_inputs] logs an error and raises [TypeError] when an
    [input-output-map] entry has no [input] (every earlier entry having
    an input with a [limsid]); when every entry has an input with a
    [limsid] nothing is logged, and it returns their ids, or raises
    [ValueError] (from [Artifact(lims, id='')]) when one of them is
    empty; but a process without any [input-output-map] entry gets the
    empty list, with no log record and no error. [frozen] keeps the
    members of its argument, as [list(frozenset(ids))] does. *)
Theorem all_inputs_type_error (frozen : list string -> list string) (unique : bool)
    (root : elem) (log : list log_entry) :
  (forall l x, In x (frozen l) <-> In x l) ->
  (forall ios pre o post,
      input_output_maps root = inr ios -> ios = pre ++ (None, o) :: post ->
      Forall has_input pre ->
      all_inputs frozen unique root log = (log ++ [LogNoInputArtifacts], inl TypeError))
  /\ (forall ios,
      input_output_maps root = inr ios -> Forall has_input ios ->
      exists ids, input_ids ios = inr ids
        /\ (~ In "" ids ->
            all_inputs frozen unique root log = (log, inr (if unique then frozen ids else ids)))
        /\ (In "" ids -> all_inputs frozen unique root log = (log, inl ValueError)))
  /\ (get_sub_nodes root "input-output-map" = [] ->
      all_inputs frozen unique root log = (log, inr (if unique then frozen [] else []))).
Proof.
  intros Hfz.
  assert (Hin : forall ids, In "" (if unique then frozen ids else ids) <-> In "" ids)
    by (intros ids; destruct unique; [apply Hfz|reflexivity]).
  split; [|split].
  - intros ios pre o post Hm -> Hpre. unfold all_inputs. rewrite Hm, input_ids_none by exact Hpre.
    reflexivity.
  - intros ios Hm Hall. destruct (input_ids_ok ios Hall) as (ids & Hids).
    exists ids. split; [exact Hids|]. unfold all_inputs. rewrite Hm, Hids. split.
    + intros Hn. rewrite artifacts_of_ids_ok; [reflexivity|]. rewrite Hin. exact Hn.
    + intros Hi. rewrite artifacts_of_ids_empty; [reflexivity|]. apply Hin. exact Hi.
  - intros Hn. unfold all_inputs, input_output_maps. cbn [rootnode snd]. rewrite Hn. cbn [io_pairs input_ids].
    rewrite artifacts_of_ids_ok; [reflexivity|]. rewrite Hin. intros [].
Qed.

Definition inp (id : string) : elem :=
  Elem "input" [("uri", String.append "http://lims/api/v2/artifacts/" id); ("limsid", id)] None [].
Definition outp (id : string) : elem :=
  Elem "output" [("uri", String.append "http://lims/api/v2/artifacts/" id); ("limsid", id);
                 ("output-type", "ResultFile")] None [].

(** A process whose second map has no input. *)
Definition degraded_process : elem :=
  Elem "prc:process" [] None
    [Elem "input-output-map" [] None [inp "A1"; outp "R1"];
     Elem "input-output-map" [] None [outp "R2"]].

(** A process with no [input-output-map] at all. *)
Definition mapless_process : elem :=
  Elem "prc:process" [] None [Elem "type" [] (Some "Aggregate QC") []].

Definition degraded_first : option pdict * option pdict :=
  (Some [("limsid", "A1"); ("uri", "http://lims/api/v2/artifacts/A1")],
   Some [("limsid", "R1"); ("uri", "http://lims/api/v2/artifacts/R1");
         ("output-type", "ResultFile")]).
Definition degraded_output : option pdict :=
  Some [("limsid", "R2"); ("uri", "http://lims/api/v2/artifacts/R2");
        ("output-type", "ResultFile")].

Lemma all_inputs_type_error_witness :
  (forall (l : list string) x, In x ((fun l => l) l) <-> In x l)
  /\ input_output_maps degraded_process = inr [degraded_first; (None, degraded_output)]
  /\ all_inputs (fun l => l) true degraded_process [] = ([LogNoInputArtifacts], inl TypeError).
Proof.
  split; [intros l x; reflexivity|].
  split; [vm_compute; reflexivity|].
  destruct (all_inputs_type_error (fun l => l) true degraded_process [] (fun l x => iff_refl _))
    as (H & _ & _).
  apply (H [degraded_first; (None, degraded_output)] [degraded_first] degraded_output []).
  - vm_compute. reflexivity.
  - reflexivity.
  - constructor; [|constructor]. do 2 eexists. split; reflexivity.
Defined.

(** Claim C9, as stated: a process whose input/output mapping is
    absent gets the empty list, with no error and nothing logged. *)
Lemma all_inputs_absent_counterexample :
  all_inputs (fun l => l) true mapless_process [] = ([], inr []).
Proof. vm_compute. reflexivity. Qed.

End ProcessFacts.

(* ------------------------------------------------------------------ *)
(** ** Nesting and scalar descriptors: further properties *)

Module DescriptorFacts.
Import Nested Scalar MoreDescriptors NestedFacts ScalarFacts.

Lemma rootnode_tag (ks : list string) (n : elem) :
  e_tag (fst (rootnode ks n)) = e_tag n.
Proof.
  destruct ks as [|k ks]; [reflexivity|]. cbn.
  destruct (get_sub_node n k); destruct (rootnode _ _); destruct n; reflexivity.
Qed.

Lemma follow_rootnode (p : list string) (r : elem) :
  follow p (fst (rootnode p r)) = Some (snd (rootnode p r)).
Proof.
  revert r. induction p as [|k p IH]; intros r; [reflexivity|].
  cbn [rootnode]. destruct (get_sub_node r k) as [ch|] eqn:Hs.
  - specialize (IH ch). destruct (rootnode p ch) as [ch' f] eqn:Hr. cbn in IH |- *.
    unfold get_sub_node in *.
    assert (Hc : e_children (set_children r (update_first (e_children r) k (fun _ => ch')))
                 = update_first (e_children r) k (fun _ => ch')) by (destruct r; reflexivity).
    rewrite Hc, (first_with_tag_update _ _ ch); [exact IH|exact Hs|].
    pose proof (rootnode_tag p ch) as Ht. rewrite Hr in Ht. exact Ht.
  - specialize (IH (new_elem k)). destruct (rootnode p (new_elem k)) as [ch' f] eqn:Hr.
    cbn in IH |- *. unfold get_sub_node in *.
    assert (Hc : e_children (append_child r ch') = e_children r ++ [ch'])
      by (destruct r; reflexivity).
    rewrite Hc, first_with_tag_app_none; [exact IH|exact Hs|].
    pose proof (rootnode_tag p (new_elem k)) as Ht. rewrite Hr in Ht. exact Ht.
Qed.

Lemma rootnode_twice (p : list string) (r : elem) :
  rootnode p (fst (rootnode p r)) = rootnode p r.
Proof.
  rewrite (rootnode_present p _ _ (follow_rootnode p r)). destruct (rootnode p r); reflexivity.
Qed.

(** [Nestable.rootnode] is idempotent: the document it leaves holds the
    whole path, down to the node it returned, and a second walk along
    the same path changes nothing and returns the same node. So only
    the first access through a nesting path can mutate the document. *)
Theorem rootnode_idempotent (p : list string) (r : elem) :
  follow p (fst (rootnode p r)) = Some (snd (rootnode p r))
  /\ rootnode p (fst (rootnode p r)) = rootnode p r.
Proof. split; [apply follow_rootnode|apply rootnode_twice]. Qed.

Lemma first_with_tag_update_other (cs : list elem) (t t' : string) (f : elem -> elem) :
  (forall c, e_tag (f c) = e_tag c) -> t' <> t ->
  first_with_tag (update_first cs t f) t' = first_with_tag cs t'.
Proof.
  intros Hf Hne. induction cs as [|c cs IH]; [reflexivity|]. cbn.
  destruct (String.eqb (e_tag c) t) eqn:E.
  - apply String.eqb_eq in E. cbn. rewrite Hf, E.
    destruct (String.eqb_spec t t'); [congruence|]. reflexivity.
  - cbn. rewrite IH. reflexivity.
Qed.

Lemma first_with_tag_app_other (cs : list elem) (c : elem) (t : string) :
  e_tag c <> t -> first_with_tag (cs ++ [c]) t = first_with_tag cs t.
Proof.
  intros Hne. induction cs as [|c' cs IH]; cbn.
  - destruct (String.eqb_spec (e_tag c) t); [congruence|reflexivity].
  - destruct (String.eqb (e_tag c') t); [reflexivity|exact IH].
Qed.

Lemma update_first_twice (cs : list elem) (t : string) (f g : elem -> elem) :
  (forall c, e_tag (f c) = e_tag c) ->
  update_first (update_first cs t f) t g = update_first cs t (fun c => g (f c)).
Proof.
  intros Hf. induction cs as [|c cs IH]; [reflexivity|]. cbn.
  destruct (String.eqb (e_tag c) t) eqn:E; cbn.
  - rewrite Hf, E. reflexivity.
  - rewrite E, IH. reflexivity.
Qed.

Lemma update_first_app_none (cs : list elem) (c : elem) (t : string) (f : elem -> elem) :
  first_with_tag cs t = None -> e_tag c = t ->
  update_first (cs ++ [c]) t f = cs ++ [f c].
Proof.
  intros Hn Hc. induction cs as [|c' cs IH]; cbn in *.
  - rewrite Hc, String.eqb_refl. reflexivity.
  - destruct (String.eqb (e_tag c') t); [discriminate|]. rewrite (IH Hn). reflexivity.
Qed.

Lemma update_first_ext (cs : list elem) (t : string) (f g : elem -> elem) :
  (forall c, f c = g c) -> update_first cs t f = update_first cs t g.
Proof.
  intros H. induction cs as [|c cs IH]; [reflexivity|]. cbn.
  rewrite H, IH. reflexivity.
Qed.

Lemma modify_nested_ext (keys : list string) (f g : elem -> elem) (r : elem) :
  (forall n, f n = g n) -> modify_nested keys f r = modify_nested keys g r.
Proof.
  intros H. revert r. induction keys as [|k keys IH]; intros r; cbn; [apply H|].
  destruct (get_sub_node r k); [|rewrite IH; reflexivity].
  f_equal. apply update_first_ext. exact IH.
Qed.

Lemma modify_nested_id (keys : list string) (r : elem) :
  modify_nested keys (fun n => n) r = fst (rootnode keys r).
Proof.
  revert r. induction keys as [|k keys IH]; intros r; [reflexivity|].
  cbn [modify_nested rootnode]. destruct (get_sub_node r k) as [ch|] eqn:Hs.
  - destruct (rootnode keys ch) as [ch' fo] eqn:Hr. cbn. f_equal.
    specialize (IH ch). rewrite Hr in IH. cbn in IH. rewrite <- IH.
    symmetry. apply (update_first_const _ _ ch (modify_nested keys (fun n => n))). exact Hs.
  - destruct (rootnode keys (new_elem k)) as [ch' fo] eqn:Hr. cbn.
    specialize (IH (new_elem k)). rewrite Hr in IH. cbn in IH. rewrite IH. reflexivity.
Qed.

Lemma follow_modify_any (keys : list string) (f : elem -> elem) (r : elem) :
  (forall n, e_tag (f n) = e_tag n) ->
  follow keys (modify_nested keys f r) = Some (f (snd (rootnode keys r))).
Proof.
  intros Hf. revert r. induction keys as [|k keys IH]; intros r; [reflexivity|].
  cbn [modify_nested rootnode]. destruct (get_sub_node r k) as [ch|] eqn:Hs.
  - destruct (rootnode keys ch) as [ch' fo] eqn:Hr. cbn. unfold get_sub_node in *.
    assert (Hc : e_children (set_children r (update_first (e_children r) k (modify_nested keys f)))
                 = update_first (e_children r) k (modify_nested keys f)) by (destruct r; reflexivity).
    rewrite Hc, (first_with_tag_update _ _ ch); [|exact Hs|apply modify_nested_tag, Hf].
    rewrite IH, Hr. reflexivity.
  - destruct (rootnode keys (new_elem k)) as [ch' fo] eqn:Hr. cbn. unfold get_sub_node in *.
    assert (Hc : e_children (append_child r (modify_nested keys f (new_elem k)))
                 = e_children r ++ [modify_nested keys f (new_elem k)]) by (destruct r; reflexivity).
    rewrite Hc, first_with_tag_app_none; [|exact Hs|rewrite modify_nested_tag by exact Hf; reflexivity].
    rewrite IH, Hr. reflexivity.
Qed.

Lemma rootnode_modify (keys : list string) (f : elem -> elem) (r : elem) :
  (forall n, e_tag (f n) = e_tag n) ->
  rootnode keys (modify_nested keys f r) = (modify_nested keys f r, f (snd (rootnode keys r))).
Proof. intros Hf. apply rootnode_present, follow_modify_any, Hf. Qed.

Lemma rootnode_fst_modify (keys : list string) (f : elem -> elem) (r : elem) :
  (forall n, e_tag (f n) = e_tag n) ->
  snd (rootnode keys (modify_nested keys f r)) = f (snd (rootnode keys r)).
Proof. intros Hf. rewrite rootnode_modify by exact Hf. reflexivity. Qed.

Lemma modify_nested_comp (keys : list string) (f g : elem -> elem) (r : elem) :
  (forall n, e_tag (f n) = e_tag n) ->
  modify_nested keys g (modify_nested keys f r) = modify_nested keys (fun n => g (f n)) r.
Proof.
  intros Hf. revert r. induction keys as [|k keys IH]; intros r; [reflexivity|].
  cbn [modify_nested]. destruct (get_sub_node r k) as [ch|] eqn:Hs.
  - unfold get_sub_node in *.
    assert (Hc : e_children (set_children r (update_first (e_children r) k (modify_nested keys f)))
                 = update_first (e_children r) k (modify_nested keys f)) by (destruct r; reflexivity).
    rewrite Hc, (first_with_tag_update _ _ ch); [|exact Hs|apply modify_nested_tag, Hf].
    rewrite update_first_twice by (intros; apply modify_nested_tag, Hf).
    destruct r. cbn. f_equal. apply update_first_ext. exact IH.
  - unfold get_sub_node in *.
    assert (Hc : e_children (append_child r (modify_nested keys f (new_elem k)))
                 = e_children r ++ [modify_nested keys f (new_elem k)]) by (destruct r; reflexivity).
    rewrite Hc, first_with_tag_app_none; [|exact Hs|rewrite modify_nested_tag by exact Hf; reflexivity].
    rewrite update_first_app_none; [|exact Hs|rewrite modify_nested_tag by exact Hf; reflexivity].
    rewrite IH. destruct r; reflexivity.
Qed.

(** [StringDescriptor.__set__] touches only its own element: the reads
    of every other tag are unchanged; and a second write replaces the
    first one (in place, or in the element the first write created). *)
Theorem string_set_frame_overwrite (tag : string) (r : elem) (v v' : pyarg) :
  string_set tag (string_set tag r v) v' = string_set tag r v'
  /\ (forall tag', tag <> "" -> tag' <> "" -> tag' <> tag ->
      string_get tag' (string_set tag r v) = string_get tag' r).
Proof.
  split.
  - unfold string_set. destruct (String.eqb tag "").
    + destruct r; reflexivity.
    + unfold get_sub_node. destruct r as [t a x cs]. cbn.
      destruct (first_with_tag cs tag) as [c|] eqn:Hc; cbn.
      * rewrite (first_with_tag_update cs tag c); [|exact Hc|destruct c; reflexivity].
        rewrite update_first_twice by (intros []; reflexivity).
        f_equal. apply update_first_ext. intros []; reflexivity.
      * rewrite first_with_tag_app_none by (exact Hc || reflexivity).
        rewrite update_first_app_none by (exact Hc || reflexivity). reflexivity.
  - intros tag' Ht Ht' Hne. unfold string_get, get_node, string_set.
    destruct (String.eqb_spec tag ""); [congruence|].
    destruct (String.eqb_spec tag' ""); [congruence|].
    unfold get_sub_node. destruct r as [t a x cs]. cbn.
    destruct (first_with_tag cs tag) as [c|] eqn:Hc; cbn.
    + rewrite first_with_tag_update_other by first [exact Hne | intros []; reflexivity]. reflexivity.
    + rewrite first_with_tag_app_other by (cbn; congruence). reflexivity.
Qed.

(** [BooleanDescriptor]: writing a [bool] stores ["true"] or ["false"]
    and reading it back yields the same [bool]. *)
Theorem boolean_roundtrip (tag : string) (r : elem) (b : bool) :
  string_get tag (boolean_set tag r b) = Some (if b then "true" else "false")
  /\ boolean_get tag (boolean_set tag r b) = Some b.
Proof.
  unfold boolean_get, boolean_set. rewrite string_set_get.
  destruct b; split; reflexivity.
Qed.

(** [StringAttributeDescriptor]: reading a missing attribute raises
    [KeyError]; after a write the read yields the written value, while
    every other attribute, the text and the children are unchanged. *)
Theorem string_attr_roundtrip (tag v : string) (r : elem) :
  (attr_lookup (e_attrib r) tag = None -> string_attr_get tag r = inl KeyError)
  /\ string_attr_get tag (string_attr_set tag v r) = inr v
  /\ (forall k, k <> tag ->
      attr_lookup (e_attrib (string_attr_set tag v r)) k = attr_lookup (e_attrib r) k)
  /\ e_text (string_attr_set tag v r) = e_text r
  /\ e_children (string_attr_set tag v r) = e_children r.
Proof.
  unfold string_attr_get, string_attr_set, Udf.attr_set. destruct r as [t a x cs]. cbn.
  split; [intros ->; reflexivity|].
  assert (Hs : attr_lookup (Udf.attrs_set tag v a) tag = Some v).
  { induction a as [|[k' v'] a IH]; cbn; [rewrite String.eqb_refl; reflexivity|].
    destruct (String.eqb tag k') eqn:E; cbn; [rewrite String.eqb_refl; reflexivity|].
    rewrite E. exact IH. }
  rewrite Hs. split; [reflexivity|]. split; [|split; reflexivity].
  intros k Hk. clear Hs. induction a as [|[k' v'] a IH]; cbn.
  - destruct (String.eqb_spec k tag); [congruence|reflexivity].
  - destruct (String.eqb_spec tag k') as [<-|]; cbn.
    + destruct (String.eqb_spec k tag); [congruence|reflexivity].
    + destruct (String.eqb k k'); [reflexivity|exact IH].
Qed.

End DescriptorFacts.

(* ------------------------------------------------------------------ *)
(** ** List projections: sequence order and document order *)

Module XmlListSync.
Import XmlListModel XmlListMore NestedFacts DescriptorFacts.

(** The element type of an [AttributeList]. *)
Definition AL := list (string * string).

(** [self._elems] are the children with the tag of the node [rootnode]
    reaches, and the list holds their attribute dicts in the same order. *)
Definition attr_sync (tag : string) (keys : list string) (s : xl AL) : Prop :=
  xl_elems s = get_sub_nodes (focus AL keys s) tag
  /\ map e_attrib (xl_elems s) = xl_items s.

Lemma set_children_tag (f : list elem -> list elem) (n : elem) :
  e_tag (set_children n (f (e_children n))) = e_tag n.
Proof. destruct n; reflexivity. Qed.

Lemma focus_edit (keys : list string) (f : list elem -> list elem) (s : xl AL) :
  focus AL keys (fst (edit_focus AL keys f s))
  = set_children (focus AL keys s) (f (e_children (focus AL keys s))).
Proof.
  unfold edit_focus, focus. cbn. apply rootnode_fst_modify. intros []; reflexivity.
Qed.

Lemma update_elems_run (tag : string) (keys : list string) (s : xl AL) :
  update_elems AL tag keys s
  = (XL (fst (rootnode keys (xl_root s))) (get_sub_nodes (focus AL keys s) tag) (xl_items s),
     inr tt)
  /\ focus AL keys (fst (update_elems AL tag keys s)) = focus AL keys s.
Proof.
  unfold update_elems, focus. destruct (rootnode keys (xl_root s)) as [r n] eqn:Hr.
  cbn. split; [reflexivity|].
  pose proof (rootnode_twice keys (xl_root s)) as H. rewrite Hr in H. cbn in H. rewrite H.
  reflexivity.
Qed.

Lemma additems_run (tag : string) (keys : list string) (vs : list AL) (s : xl AL) :
  snd (additems AL (fun v => v) tag keys vs s) = inr tt
  /\ focus AL keys (fst (additems AL (fun v => v) tag keys vs s))
     = set_children (focus AL keys s)
         (e_children (focus AL keys s) ++ map (create_new_node AL (fun v => v) tag) vs)
  /\ xl_items (fst (additems AL (fun v => v) tag keys vs s)) = xl_items s.
Proof.
  revert s. induction vs as [|v vs IH]; intros s.
  - cbn. split; [reflexivity|]. split; [|reflexivity].
    destruct (focus AL keys s); cbn; rewrite app_nil_r; reflexivity.
  - cbn [additems additem]. unfold bind at 1.
    destruct (IH (fst (edit_focus AL keys (fun cs => cs ++ [create_new_node AL (fun v => v) tag v]) s)))
      as (H1 & H2 & H3).
    cbn -[additems create_new_node] in H1, H2, H3 |- *.
    split; [exact H1|]. split; [|exact H3].
    rewrite H2. unfold focus. cbn [xl_root].
    rewrite rootnode_fst_modify by (intros []; reflexivity).
    destruct (snd (rootnode keys (xl_root s))). cbn. rewrite <- app_assoc. reflexivity.
Qed.

Lemma filter_created (tag : string) (cs : list elem) (vs : list AL) :
  filter (fun c => String.eqb (e_tag c) tag = true)
    (cs ++ map (create_new_node AL (fun v => v) tag) vs)
  = filter (fun c => String.eqb (e_tag c) tag = true) cs
    ++ map (create_new_node AL (fun v => v) tag) vs.
Proof.
  rewrite filter_app. f_equal. induction vs as [|v vs IH]; [reflexivity|].
  cbn [map]. rewrite filter_cons_True by (cbn; apply String.eqb_refl). rewrite IH. reflexivity.
Qed.

Lemma map_attrib_created (tag : string) (vs : list AL) :
  map e_attrib (map (create_new_node AL (fun v => v) tag) vs) = vs.
Proof. induction vs as [|v vs IH]; [reflexivity|]. cbn. rewrite IH. reflexivity. Qed.

Lemma extend_sync (tag : string) (keys : list string) (s : xl AL) (vs : list AL) :
  attr_sync tag keys s ->
  snd (extend AL (fun v => v) tag keys vs s) = inr tt
  /\ attr_sync tag keys (fst (extend AL (fun v => v) tag keys vs s))
  /\ xl_items (fst (extend AL (fun v => v) tag keys vs s)) = xl_items s ++ vs.
Proof.
  intros [He Hi]. unfold extend, bind.
  destruct (additems_run tag keys vs s) as (H1 & H2 & H3).
  destruct (additems AL (fun v => v) tag keys vs s) as [s1 r1]. cbn in H1, H2, H3. subst r1.
  destruct (update_elems_run tag keys s1) as (Hu & Hf). rewrite Hu in Hf |- *.
  cbn. split; [reflexivity|]. unfold attr_sync. cbn.
  unfold focus in Hf |- *. cbn in Hf |- *. rewrite Hf. unfold focus in H2. rewrite H2.
  split; [split; [reflexivity|]|rewrite H3; reflexivity].
  rewrite H3, <- Hi, He. unfold focus.
  destruct (snd (rootnode keys (xl_root s))) as [t a x cs]. unfold get_sub_nodes.
  cbn [set_children e_children].
  rewrite filter_created, map_app, map_attrib_created. reflexivity.
Qed.

(** [append(v)] runs as [extend([v])]. *)
Lemma append_extend {item} (node_attrs : item -> list (string * string))
    (tag : string) (keys : list string) (v : item) (s : xl item) :
  append item node_attrs tag keys v s = extend item node_attrs tag keys [v] s.
Proof.
  unfold append, extend. cbn [additems]. unfold bind, ret.
  destruct (additem item node_attrs tag keys v s) as [s1 [e|[]]]; reflexivity.
Qed.

(** [AttributeList]: the constructor leaves [_elems] equal to the
    children with the tag of the node [rootnode] reaches and the list
    equal to their attribute dicts, in document order; [append] and
    [extend] succeed and keep that correspondence, the new items last in
    both the document and the list. *)
Theorem attrlist_append_extend_sync (tag : string) (keys : list string) :
  (forall root, snd (attr_init tag keys root) = inr tt
                /\ attr_sync tag keys (fst (attr_init tag keys root)))
  /\ (forall (s : xl AL) (vs : list AL), attr_sync tag keys s ->
      snd (extend AL (fun v => v) tag keys vs s) = inr tt
      /\ attr_sync tag keys (fst (extend AL (fun v => v) tag keys vs s))
      /\ xl_items (fst (extend AL (fun v => v) tag keys vs s)) = xl_items s ++ vs)
  /\ (forall (s : xl AL) (v : AL), attr_sync tag keys s ->
      snd (append AL (fun v => v) tag keys v s) = inr tt
      /\ attr_sync tag keys (fst (append AL (fun v => v) tag keys v s))
      /\ xl_items (fst (append AL (fun v => v) tag keys v s)) = xl_items s ++ [v]).
Proof.
  split; [|split].
  - intros root. unfold attr_init, xl_init, bind. fold AL.
    destruct (update_elems_run tag keys (XL root [] [])) as (Hu & Hf).
    rewrite Hu in Hf |- *. cbn. split; [reflexivity|]. unfold attr_sync. cbn.
    unfold focus in Hf |- *. cbn in Hf |- *. rewrite Hf. split; reflexivity.
  - apply extend_sync.
  - intros s v Hs. rewrite append_extend. apply extend_sync. exact Hs.
Qed.

Definition all_tagged (tag : string) (cs : list elem) : Prop :=
  Forall (fun c => e_tag c = tag) cs.

Lemma filter_all_tagged (tag : string) (cs : list elem) :
  all_tagged tag cs -> filter (fun c => String.eqb (e_tag c) tag = true) cs = cs.
Proof.
  induction 1 as [|c cs Hc _ IH]; [reflexivity|].
  rewrite filter_cons_True by (rewrite Hc; apply String.eqb_refl). rewrite IH. reflexivity.
Qed.

Lemma remove_nth_all_tagged (tag : string) (j : nat) (cs : list elem) :
  all_tagged tag cs -> remove_nth_tagged tag j cs = delete j cs.
Proof.
  intros H. revert j. induction H as [|c cs Hc _ IH]; intros j; [reflexivity|].
  cbn. rewrite Hc, String.eqb_refl. destruct j; [reflexivity|]. rewrite IH. reflexivity.
Qed.

Lemma map_delete_list {A B} (f : A -> B) (j : nat) (l : list A) :
  map f (delete j l) = delete j (map f l).
Proof. revert j. induction l as [|x l IH]; intros [|j]; cbn; rewrite ?IH; reflexivity. Qed.

Lemma map_insert_at {A B} (f : A -> B) (p : nat) (x : A) (l : list A) :
  map f (insert_at p x l) = insert_at p (f x) (map f l).
Proof.
  unfold insert_at. revert p. induction l as [|y l IH]; intros [|p]; cbn; try reflexivity.
  rewrite IH. reflexivity.
Qed.

Lemma all_tagged_insert_at (tag : string) (p : nat) (c : elem) (cs : list elem) :
  e_tag c = tag -> all_tagged tag cs -> all_tagged tag (insert_at p c cs).
Proof.
  intros Hc H. unfold all_tagged, insert_at in *.
  apply Forall_app; split; [apply Forall_take, H|constructor; [exact Hc|apply Forall_drop, H]].
Qed.

Lemma sync_all_tagged (tag : string) (keys : list string) (s : xl AL) :
  attr_sync tag keys s -> all_tagged tag (e_children (focus AL keys s)) ->
  xl_elems s = e_children (focus AL keys s)
  /\ xl_items s = map e_attrib (e_children (focus AL keys s)).
Proof.
  intros [He Hi] Ha. unfold get_sub_nodes in He. rewrite filter_all_tagged in He by exact Ha.
  split; [exact He|]. rewrite <- Hi, He. reflexivity.
Qed.

Lemma edit_focus_run (keys : list string) (f : list elem -> list elem) (s : xl AL) :
  snd (edit_focus AL keys f s) = inr tt
  /\ focus AL keys (fst (edit_focus AL keys f s))
     = set_children (focus AL keys s) (f (e_children (focus AL keys s)))
  /\ xl_elems (fst (edit_focus AL keys f s)) = xl_elems s
  /\ xl_items (fst (edit_focus AL keys f s)) = xl_items s.
Proof. split; [reflexivity|]. split; [apply focus_edit|split; reflexivity]. Qed.

Lemma children_set (n : elem) (cs : list elem) : e_children (set_children n cs) = cs.
Proof. destruct n; reflexivity. Qed.

(** [XmlList.insert] on an [AttributeList] whose node holds only
    children with the list's tag: the call succeeds, the new node goes
    to the position [list.insert] gives the new item, and the list and
    the document stay in the same order. *)
Theorem attrlist_insert_sync (tag : string) (keys : list string) (i : Z) (v : AL) (s : xl AL) :
  attr_sync tag keys s -> all_tagged tag (e_children (focus AL keys s)) ->
  snd (insert AL (fun v => v) tag keys i v s) = inr tt
  /\ attr_sync tag keys (fst (insert AL (fun v => v) tag keys i v s))
  /\ all_tagged tag (e_children (focus AL keys (fst (insert AL (fun v => v) tag keys i v s))))
  /\ xl_items (fst (insert AL (fun v => v) tag keys i v s))
     = insert_at (insert_pos i (length (xl_items s))) v (xl_items s).
Proof.
  intros Hs Ha. destruct (sync_all_tagged tag keys s Hs Ha) as [He Hi].
  unfold insert, bind, insertitem.
  destruct (edit_focus_run keys (fun cs => insert_at (insert_pos i (length cs))
              (create_new_node AL (fun v => v) tag v) cs) s) as (E1 & E2 & E3 & E4).
  destruct (edit_focus AL keys _ s) as [s1 r1]. cbn in E1, E2, E3, E4. subst r1.
  destruct (update_elems_run tag keys s1) as (Hu & Hf). rewrite Hu in Hf |- *.
  cbn. split; [reflexivity|].
  unfold focus in Hf |- *. cbn in Hf |- *. rewrite Hf. unfold focus in E2. rewrite E2.
  rewrite children_set. unfold focus in Ha, Hi. rewrite E4, Hi, length_map.
  assert (Ha' : all_tagged tag (insert_at (insert_pos i (length (e_children (snd (rootnode keys (xl_root s))))))
                  (create_new_node AL (fun v => v) tag v) (e_children (snd (rootnode keys (xl_root s)))))).
  { apply all_tagged_insert_at; [reflexivity|exact Ha]. }
  split; [|split; [exact Ha'|]].
  - unfold attr_sync. cbn. unfold focus. cbn. rewrite Hf, E2. split; [reflexivity|].
    unfold get_sub_nodes. rewrite children_set, filter_all_tagged by exact Ha'.
    rewrite map_insert_at. reflexivity.
  - reflexivity.
Qed.

Lemma norm_index_spec (z : Z) (n j : nat) :
  norm_index z n = Some j ->
  (j < n)%nat /\ ((z < 0)%Z -> Z.of_nat j = (z + Z.of_nat n)%Z)
  /\ ((0 <= z)%Z -> Z.of_nat j = z).
Proof.
  unfold norm_index. intros H. destruct (Z.ltb_spec z 0) as [Hz|Hz];
  match type of H with context [(0 <=? ?a)%Z] => destruct (Z.leb_spec 0 a) end;
  match type of H with context [(?a <? Z.of_nat n)%Z] => destruct (Z.ltb_spec a (Z.of_nat n)) end;
  cbn in H; try discriminate; injection H as <-; repeat split; intros; lia.
Qed.

Lemma insert_at_delete {A} (j : nat) (x : A) (l : list A) :
  (j < length l)%nat -> insert_at j x (delete j l) = <[j:=x]> l.
Proof.
  intros Hj. rewrite insert_take_drop by exact Hj. unfold insert_at.
  rewrite delete_take_drop.
  assert (Ht : length (take j l) = j) by (rewrite length_take; lia).
  rewrite take_app_length' by lia. rewrite drop_app_length' by lia. reflexivity.
Qed.

Lemma set_children_twice (n : elem) (a b : list elem) :
  set_children (set_children n a) b = set_children n b.
Proof. destruct n; reflexivity. Qed.

Lemma bind_inr {S A B} (m : PyM S A) (k : A -> PyM S B) (s s' : S) (a : A) :
  m s = (s', inr a) -> bind m k s = k a s'.
Proof. intros H. unfold bind. rewrite H. reflexivity. Qed.

Lemma setitem_run (tag : string) (keys : list string) (z : Z) (j : nat) (v : AL) (s : xl AL) :
  attr_sync tag keys s -> all_tagged tag (e_children (focus AL keys s)) ->
  norm_index z (length (xl_items s)) = Some j ->
  snd (setitem AL (fun v => v) tag keys (IInt z) v s) = inr tt
  /\ focus AL keys (fst (setitem AL (fun v => v) tag keys (IInt z) v s))
     = set_children (focus AL keys s)
         (insert_at (insert_pos z (length (delete j (e_children (focus AL keys s)))))
            (create_new_node AL (fun v => v) tag v) (delete j (e_children (focus AL keys s))))
  /\ xl_elems (fst (setitem AL (fun v => v) tag keys (IInt z) v s))
     = insert_at (insert_pos z (length (delete j (e_children (focus AL keys s)))))
         (create_new_node AL (fun v => v) tag v) (delete j (e_children (focus AL keys s)))
  /\ xl_items (fst (setitem AL (fun v => v) tag keys (IInt z) v s)) = <[j:=v]> (xl_items s).
Proof.
  intros Hs Ha Hn. destruct (sync_all_tagged tag keys s Hs Ha) as [He Hi].
  assert (Hn' : norm_index z (length (xl_elems s)) = Some j).
  { rewrite He, <- Hn, Hi, length_map. reflexivity. }
  destruct (edit_focus_run keys (remove_nth_tagged tag j) s) as (E1 & E2 & E3 & E4).
  destruct (edit_focus AL keys (remove_nth_tagged tag j) s) as [s1 r1] eqn:D.
  cbn in E1, E2, E3, E4. subst r1.
  rewrite remove_nth_all_tagged in E2 by exact Ha.
  assert (D' : delitem_ AL tag keys z s = (s1, inr tt)) by (unfold delitem_; rewrite Hn'; exact D).
  destruct (edit_focus_run keys (fun cs => insert_at (insert_pos z (length cs))
              (create_new_node AL (fun v => v) tag v) cs) s1) as (F1 & F2 & F3 & F4).
  destruct (edit_focus AL keys _ s1) as [s2 r2] eqn:I. cbn in F1, F2, F3, F4. subst r2.
  destruct (update_elems_run tag keys s2) as (Hu & Hf). rewrite Hu in Hf. cbn in Hf.
  unfold setitem. rewrite (bind_inr _ _ s s2 tt).
  2:{ unfold setitem_. rewrite (bind_inr _ _ s s1 tt D'). exact I. }
  rewrite (bind_inr _ _ _ _ tt Hu).
  unfold list_setitem. cbn [xl_items]. rewrite F4, E4, Hn.
  cbn. split; [reflexivity|].
  unfold focus in Hf, F2, E2 |- *. cbn in Hf |- *. rewrite Hf, F2, E2, children_set, set_children_twice.
  split; [reflexivity|]. split; [|reflexivity].
  unfold get_sub_nodes. rewrite children_set, filter_all_tagged; [reflexivity|].
  apply all_tagged_insert_at; [reflexivity|]. apply Forall_delete. exact Ha.
Qed.

Lemma setitem_doc (tag : string) (keys : list string) (z : Z) (j : nat) (v : AL) (s : xl AL) :
  attr_sync tag keys s -> all_tagged tag (e_children (focus AL keys s)) ->
  norm_index z (length (xl_items s)) = Some j ->
  snd (setitem AL (fun v => v) tag keys (IInt z) v s) = inr tt
  /\ xl_elems (fst (setitem AL (fun v => v) tag keys (IInt z) v s))
     = get_sub_nodes (focus AL keys (fst (setitem AL (fun v => v) tag keys (IInt z) v s))) tag
  /\ all_tagged tag (e_children (focus AL keys (fst (setitem AL (fun v => v) tag keys (IInt z) v s))))
  /\ map e_attrib (xl_elems (fst (setitem AL (fun v => v) tag keys (IInt z) v s)))
     = insert_at (insert_pos z (length (xl_items s) - 1)) v (delete j (xl_items s))
  /\ xl_items (fst (setitem AL (fun v => v) tag keys (IInt z) v s)) = <[j:=v]> (xl_items s).
Proof.
  intros Hs Ha Hn. destruct (sync_all_tagged tag keys s Hs Ha) as [He Hi].
  destruct (norm_index_spec z _ j Hn) as (Hj & _ & _).
  destruct (setitem_run tag keys z j v s Hs Ha Hn) as (R1 & R2 & R3 & R4).
  assert (Hl : length (delete j (e_children (focus AL keys s))) = length (xl_items s) - 1).
  { rewrite length_delete, Hi, length_map; [reflexivity|].
    apply lookup_lt_is_Some_2. rewrite Hi, length_map in Hj. exact Hj. }
  rewrite Hl in R2, R3.
  assert (Ha' : all_tagged tag (insert_at (insert_pos z (length (xl_items s) - 1))
                  (create_new_node AL (fun v => v) tag v) (delete j (e_children (focus AL keys s))))).
  { apply all_tagged_insert_at; [reflexivity|]. apply Forall_delete. exact Ha. }
  split; [exact R1|]. rewrite R2, R3, children_set. split; [|split; [exact Ha'|split; [|exact R4]]].
  - unfold get_sub_nodes. rewrite children_set, filter_all_tagged by exact Ha'. reflexivity.
  - rewrite map_insert_at, map_delete_list, <- Hi. reflexivity.
Qed.

(** [XmlList.__setitem__] with an index [0 <= i < len] on an
    [AttributeList] whose node holds only children with the list's tag:
    the call succeeds, the new node replaces the [i]-th one in place and
    the list and the document stay in the same order. *)
Theorem attrlist_setitem_nonneg_sync (tag : string) (keys : list string) (z : Z) (v : AL) (s : xl AL) :
  attr_sync tag keys s -> all_tagged tag (e_children (focus AL keys s)) ->
  (0 <= z)%Z -> (z < Z.of_nat (length (xl_items s)))%Z ->
  snd (setitem AL (fun v => v) tag keys (IInt z) v s) = inr tt
  /\ attr_sync tag keys (fst (setitem AL (fun v => v) tag keys (IInt z) v s))
  /\ all_tagged tag (e_children (focus AL keys (fst (setitem AL (fun v => v) tag keys (IInt z) v s))))
  /\ xl_items (fst (setitem AL (fun v => v) tag keys (IInt z) v s)) = <[Z.to_nat z:=v]> (xl_items s).
Proof.
  intros Hs Ha H0 H1.
  assert (Hn : norm_index z (length (xl_items s)) = Some (Z.to_nat z)).
  { unfold norm_index. destruct (Z.ltb_spec z 0); [lia|].
    destruct (Z.leb_spec 0 z); [|lia]. destruct (Z.ltb_spec z (Z.of_nat (length (xl_items s)))); [|lia].
    reflexivity. }
  destruct (setitem_doc tag keys z _ v s Hs Ha Hn) as (R1 & R2 & R3 & R4 & R5).
  split; [exact R1|]. split; [|split; [exact R3|exact R5]].
  split; [exact R2|]. rewrite R4, R5.
  replace (insert_pos z (length (xl_items s) - 1)) with (Z.to_nat z)
    by (unfold insert_pos; destruct (Z.ltb_spec z 0); lia).
  apply insert_at_delete. apply Nat2Z.inj_lt. rewrite Z2Nat.id by exact H0. exact H1.
Qed.

(** [XmlList.__setitem__] with a negative index [-len <= i < 0] on the
    same kind of list: the list item at [len + i] is replaced, but in the
    document the old node is removed and the new one is inserted one
    position earlier (before the item at [len + i - 1]) when [len + i]
    is positive, so list order and document order then differ. *)
Theorem attrlist_setitem_negative (tag : string) (keys : list string) (z : Z) (v : AL) (s : xl AL) :
  attr_sync tag keys s -> all_tagged tag (e_children (focus AL keys s)) ->
  (z < 0)%Z -> (- Z.of_nat (length (xl_items s)) <= z)%Z ->
  snd (setitem AL (fun v => v) tag keys (IInt z) v s) = inr tt
  /\ xl_items (fst (setitem AL (fun v => v) tag keys (IInt z) v s))
     = <[Z.to_nat (z + Z.of_nat (length (xl_items s))):=v]> (xl_items s)
  /\ map e_attrib (xl_elems (fst (setitem AL (fun v => v) tag keys (IInt z) v s)))
     = insert_at (Z.to_nat (z + Z.of_nat (length (xl_items s))) - 1) v
         (delete (Z.to_nat (z + Z.of_nat (length (xl_items s)))) (xl_items s))
  /\ xl_elems (fst (setitem AL (fun v => v) tag keys (IInt z) v s))
     = get_sub_nodes (focus AL keys (fst (setitem AL (fun v => v) tag keys (IInt z) v s))) tag.
Proof.
  intros Hs Ha H0 H1.
  assert (Hn : norm_index z (length (xl_items s))
               = Some (Z.to_nat (z + Z.of_nat (length (xl_items s))))).
  { unfold norm_index. destruct (Z.ltb_spec z 0); [|lia].
    destruct (Z.leb_spec 0 (z + Z.of_nat (length (xl_items s)))); [|lia].
    destruct (Z.ltb_spec (z + Z.of_nat (length (xl_items s))) (Z.of_nat (length (xl_items s)))); [|lia].
    reflexivity. }
  destruct (setitem_doc tag keys z _ v s Hs Ha Hn) as (R1 & R2 & R3 & R4 & R5).
  split; [exact R1|]. split; [exact R5|]. split; [|exact R2].
  rewrite R4. f_equal. unfold insert_pos. destruct (Z.ltb_spec z 0); lia.
Qed.

(** A sample document: an [AttributeList] over the [sample] children
    of the [samples] node. *)
Definition w_root : elem :=
  Elem "artifact" [] None
    [Elem "samples" [] None
       [Elem "sample" [("uri", "s1")] None []; Elem "sample" [("uri", "s2")] None []]].

Definition w_list : xl AL := fst (attr_init "sample" ["samples"] w_root).

Definition w_item : AL := [("uri", "s3")].

Lemma w_list_sync : attr_sync "sample" ["samples"] w_list.
Proof. split; vm_compute; reflexivity. Qed.

Lemma w_list_tagged : all_tagged "sample" (e_children (focus AL ["samples"] w_list)).
Proof. vm_compute. repeat constructor. Qed.

Lemma w_list_length : length (xl_items w_list) = 2%nat.
Proof. reflexivity. Qed.

Lemma attrlist_append_extend_sync_witness :
  attr_sync "sample" ["samples"] w_list
  /\ snd (extend AL (fun v => v) "sample" ["samples"] [w_item] w_list) = inr tt
  /\ attr_sync "sample" ["samples"] (fst (extend AL (fun v => v) "sample" ["samples"] [w_item] w_list))
  /\ xl_items (fst (extend AL (fun v => v) "sample" ["samples"] [w_item] w_list))
     = xl_items w_list ++ [w_item].
Proof.
  split; [exact w_list_sync|].
  exact (proj1 (proj2 (attrlist_append_extend_sync "sample" ["samples"])) w_list [w_item] w_list_sync).
Defined.

Lemma attrlist_insert_sync_witness :
  attr_sync "sample" ["samples"] w_list
  /\ all_tagged "sample" (e_children (focus AL ["samples"] w_list))
  /\ snd (insert AL (fun v => v) "sample" ["samples"] 1 w_item w_list) = inr tt
  /\ attr_sync "sample" ["samples"] (fst (insert AL (fun v => v) "sample" ["samples"] 1 w_item w_list))
  /\ all_tagged "sample" (e_children (focus AL ["samples"]
       (fst (insert AL (fun v => v) "sample" ["samples"] 1 w_item w_list))))
  /\ xl_items (fst (insert AL (fun v => v) "sample" ["samples"] 1 w_item w_list))
     = insert_at (insert_pos 1 (length (xl_items w_list))) w_item (xl_items w_list).
Proof.
  split; [exact w_list_sync|]. split; [exact w_list_tagged|].
  exact (attrlist_insert_sync "sample" ["samples"] 1 w_item w_list w_list_sync w_list_tagged).
Defined.

Lemma attrlist_setitem_nonneg_sync_witness :
  attr_sync "sample" ["samples"] w_list
  /\ all_tagged "sample" (e_children (focus AL ["samples"] w_list))
  /\ (0 <= 1)%Z /\ (1 < Z.of_nat (length (xl_items w_list)))%Z
  /\ snd (setitem AL (fun v => v) "sample" ["samples"] (IInt 1) w_item w_list) = inr tt
  /\ attr_sync "sample" ["samples"] (fst (setitem AL (fun v => v) "sample" ["samples"] (IInt 1) w_item w_list))
  /\ all_tagged "sample" (e_children (focus AL ["samples"]
       (fst (setitem AL (fun v => v) "sample" ["samples"] (IInt 1) w_item w_list))))
  /\ xl_items (fst (setitem AL (fun v => v) "sample" ["samples"] (IInt 1) w_item w_list))
     = <[Z.to_nat 1:=w_item]> (xl_items w_list).
Proof.
  assert (H0 : (0 <= 1)%Z) by lia.
  assert (H1 : (1 < Z.of_nat (length (xl_items w_list)))%Z) by (rewrite w_list_length; lia).
  split; [exact w_list_sync|]. split; [exact w_list_tagged|]. split; [exact H0|]. split; [exact H1|].
  exact (attrlist_setitem_nonneg_sync "sample" ["samples"] 1 w_item w_list
           w_list_sync w_list_tagged H0 H1).
Defined.

Lemma attrlist_setitem_negative_witness :
  attr_sync "sample" ["samples"] w_list
  /\ all_tagged "sample" (e_children (focus AL ["samples"] w_list))
  /\ (-1 < 0)%Z /\ (- Z.of_nat (length (xl_items w_list)) <= -1)%Z
  /\ xl_items (fst (setitem AL (fun v => v) "sample" ["samples"] (IInt (-1)) w_item w_list))
     = [[("uri", "s1")]; w_item]
  /\ map e_attrib (xl_elems (fst (setitem AL (fun v => v) "sample" ["samples"] (IInt (-1)) w_item w_list)))
     = [w_item; [("uri", "s1")]].
Proof.
  assert (H0 : (-1 < 0)%Z) by lia.
  assert (H1 : (- Z.of_nat (length (xl_items w_list)) <= -1)%Z) by (rewrite w_list_length; lia).
  destruct (attrlist_setitem_negative "sample" ["samples"] (-1) w_item w_list
              w_list_sync w_list_tagged H0 H1) as (_ & R2 & R3 & _).
  split; [exact w_list_sync|]. split; [exact w_list_tagged|]. split; [exact H0|]. split; [exact H1|].
  rewrite R2, R3. split; vm_compute; reflexivity.
Defined.

End XmlListSync.

(* ------------------------------------------------------------------ *)
(** ** [XmlDictionary.clear] and new keys of a [UdfDictionary] *)

Module UdfMoreFacts.
Import Udf UdfMore UdfFixtures NestedFacts DescriptorFacts.

Lemma filter_fields_removed (cs : list elem) :
  filter (fun c => String.eqb (e_tag c) udf_field = true)
    (filter (fun c => negb (String.eqb (e_tag c) udf_field)) cs) = [].
Proof.
  induction cs as [|c cs IH]; [reflexivity|].
  destruct (String.eqb (e_tag c) udf_field) eqn:E.
  - rewrite filter_cons_False by (rewrite E; cbn; tauto). exact IH.
  - rewrite filter_cons_True by (rewrite E; exact I).
    rewrite filter_cons_False by (rewrite E; discriminate). exact IH.
Qed.

Lemma in_fields_nonudt (d : udf_dict) (f : list elem -> list elem) :
  udt_truthy (ud_udt d) = false ->
  in_fields d f = modify_nested (ud_nesting d) (fun fc => set_children fc (f (e_children fc))) (ud_root d).
Proof. intros H. unfold in_fields. rewrite H. reflexivity. Qed.

Lemma focus_in_fields_nonudt (d : udf_dict) (f : list elem -> list elem) :
  udt_truthy (ud_udt d) = false ->
  rootnode (ud_nesting d) (in_fields d f)
  = (in_fields d f, set_children (focus d) (f (e_children (focus d)))).
Proof.
  intros H. rewrite in_fields_nonudt by exact H. unfold focus.
  apply rootnode_modify. intros []; reflexivity.
Qed.

Lemma nonudt_edit_run (d : udf_dict) (f : list elem -> list elem) :
  udt_truthy (ud_udt d) = false ->
  update_elems (with_root d (in_fields d f)) = (with_root d (in_fields d f), inr tt)
  /\ focus (with_root d (in_fields d f)) = set_children (focus d) (f (e_children (focus d))).
Proof.
  intros H. unfold update_elems. cbn [with_root ud_udt ud_nesting ud_root]. rewrite H.
  unfold focus at 1 2. cbn [with_root ud_udt ud_nesting ud_root].
  rewrite (focus_in_fields_nonudt d f H). split; reflexivity.
Qed.

(** [XmlDictionary.clear] on a [UdfDictionary]: outside UDT mode it
    succeeds, empties the [dict] and removes every field element from the
    node [rootnode] reaches, keeping its other children in order, so no
    field is left for [_elems]; in UDT mode with at least one field it
    empties the [dict], then raises [ValueError] with the document
    unchanged. *)
Theorem udf_clear_behaviour (d : udf_dict) :
  (udt_truthy (ud_udt d) = false ->
     snd (clear d) = inr tt
     /\ ud_items (fst (clear d)) = []
     /\ elems (fst (clear d)) = []
     /\ e_children (focus (fst (clear d)))
        = filter (fun c => negb (String.eqb (e_tag c) udf_field)) (e_children (focus d)))
  /\ (udt_truthy (ud_udt d) = true -> elems d <> [] ->
      clear d = (with_items d [], inl ValueError)).
Proof.
  split.
  - intros H. unfold clear. rewrite H.
    destruct (nonudt_edit_run (with_items d []) (filter (fun c => negb (String.eqb (e_tag c) udf_field))) H)
      as [U F].
    rewrite U. cbn [fst snd]. split; [reflexivity|]. split; [reflexivity|].
    unfold elems at 1. cbn [with_root with_items ud_udt]. rewrite H, F.
    unfold get_sub_nodes. rewrite XmlListSync.children_set.
    split; [apply filter_fields_removed|reflexivity].
  - intros H Hne. unfold clear. rewrite H. destruct (elems d); [congruence|reflexivity].
Qed.

Lemma with_items_twice (d : udf_dict) (a b : list (string * pyval)) :
  with_items (with_items d a) b = with_items d b.
Proof. destruct d; reflexivity. Qed.

Lemma parse_all_shape (es : list elem) (d : udf_dict) :
  exists it, fst (parse_all es d) = with_items d it.
Proof.
  revert d. induction es as [|e es IH]; intros d.
  - exists (ud_items d). destruct d; reflexivity.
  - cbn [parse_all]. unfold bind, parse_element.
    destruct (attr_lookup (e_attrib e) "type"); [|exists (ud_items d); destruct d; reflexivity].
    destruct (parse_value _ _) as [err|v]; [exists (ud_items d); destruct d; reflexivity|].
    destruct (attr_lookup (e_attrib e) "name"); [|exists (ud_items d); destruct d; reflexivity].
    destruct (IH (with_items d (dict_set s0 v (ud_items d))))
      as [it Hit].
    exists it. rewrite Hit. apply with_items_twice.
Qed.

Lemma parse_all_snd (es : list elem) (d d' : udf_dict) :
  snd (parse_all es d) = snd (parse_all es d').
Proof.
  revert d d'. induction es as [|e es IH]; intros d d'; [reflexivity|].
  cbn [parse_all]. unfold bind, parse_element.
  destruct (attr_lookup (e_attrib e) "type"); [|reflexivity].
  destruct (parse_value _ _); [reflexivity|].
  destruct (attr_lookup (e_attrib e) "name"); [|reflexivity].
  apply IH.
Qed.

Lemma parse_all_app (es1 es2 : list elem) (d : udf_dict) :
  parse_all (es1 ++ es2) d = (parse_all es1 ;;; parse_all es2) d.
Proof.
  revert d. induction es1 as [|e es1 IH]; intros d; [reflexivity|].
  cbn [app parse_all]. unfold bind at 1 2 3.
  destruct (parse_element e d) as [d1 [x|[]]]; [reflexivity|]. apply IH.
Qed.

Lemma dict_get_set (k : string) (v : pyval) (it : list (string * pyval)) :
  dict_get (dict_set k v it) k = Some v.
Proof.
  induction it as [|[k' v'] it IH]; cbn; [rewrite String.eqb_refl; reflexivity|].
  destruct (String.eqb k k') eqn:E; cbn; [rewrite String.eqb_refl; reflexivity|].
  rewrite E. exact IH.
Qed.

(** The field element [_setitem] creates for a new key. *)
Definition new_field (key vtype x : string) : elem :=
  Elem udf_field [("type", vtype); ("name", key)] (Some x) [].

Lemma parse_new_field (key vtype x : string) (v : pyval) (d : udf_dict) :
  parse_value (py_lower vtype) (Some x) = inr v ->
  parse_element (new_field key vtype x) d = (with_items d (dict_set key v (ud_items d)), inr tt).
Proof.
  intros Hv. unfold parse_element, new_field. cbn [e_attrib e_text].
  assert (Ht : attr_lookup [("type", vtype); ("name", key)] "type" = Some vtype) by reflexivity.
  assert (Hn : attr_lookup [("type", vtype); ("name", key)] "name" = Some key) by reflexivity.
  rewrite Ht, Hv, Hn. reflexivity.
Qed.

Lemma reload_appended (d : udf_dict) (key vtype x : string) (v : pyval) (u : udt_flag)
  (it : list (string * pyval)) :
  parse_value (py_lower vtype) (Some x) = inr v ->
  udt_truthy (ud_udt d) = false -> udt_truthy u = false ->
  snd (prepare_lookup d) = inr tt ->
  snd (prepare_lookup (UdfDict (in_fields d (fun cs => cs ++ [new_field key vtype x])) (ud_nesting d) u it))
    = inr tt
  /\ ud_root (fst (prepare_lookup
       (UdfDict (in_fields d (fun cs => cs ++ [new_field key vtype x])) (ud_nesting d) u it)))
     = in_fields d (fun cs => cs ++ [new_field key vtype x])
  /\ dict_get (ud_items (fst (prepare_lookup
       (UdfDict (in_fields d (fun cs => cs ++ [new_field key vtype x])) (ud_nesting d) u it)))) key
     = Some v.
Proof.
  intros Hv Hd Hu Hp.
  set (r1 := in_fields d (fun cs => cs ++ [new_field key vtype x])).
  assert (He : elems (UdfDict r1 (ud_nesting d) u it) = elems d ++ [new_field key vtype x]).
  { unfold elems at 1. cbn [ud_udt]. rewrite Hu. unfold focus. cbn [ud_nesting ud_root].
    unfold r1. rewrite (focus_in_fields_nonudt d _ Hd). cbn [snd].
    unfold elems. rewrite Hd. unfold get_sub_nodes, focus. rewrite XmlListSync.children_set.
    rewrite filter_app. f_equal. }
  unfold prepare_lookup at 1 2 3. rewrite He, parse_all_app. unfold bind.
  pose proof (parse_all_snd (elems d) (UdfDict r1 (ud_nesting d) u it) d) as Hs.
  unfold prepare_lookup in Hp. rewrite Hp in Hs.
  destruct (parse_all_shape (elems d) (UdfDict r1 (ud_nesting d) u it)) as [it' Hit].
  destruct (parse_all (elems d) (UdfDict r1 (ud_nesting d) u it)) as [d2 r2].
  cbn in Hs, Hit. subst r2 d2. cbn [parse_all]. unfold bind.
  rewrite (parse_new_field key vtype x v _ Hv). cbn.
  split; [reflexivity|]. split; [reflexivity|]. apply dict_get_set.
Qed.

(** The values whose encoding [_setitem] chooses for a new key decodes
    back to the same value. *)
Lemma infer_parse (v : pyval) (vtype x : string) :
  ((exists s, v = PStr s /\ s <> "") \/ (exists z, v = PInt z) \/ (exists b, v = PBool b)
   \/ (exists iso, v = PDate iso /\ parse_date iso = Some iso)) ->
  infer_new v = inr (vtype, x) -> parse_value (py_lower vtype) (Some x) = inr v.
Proof.
  intros [(s & -> & Hs)|[(z & ->)|[(b & ->)|(iso & -> & Hs)]]]; cbn; intros E;
    injection E as <- <-.
  - destruct s as [|c s]; [congruence|]. destruct (has_newline (String c s)); reflexivity.
  - pose proof (ScalarFacts.py_int_of_str z) as Hz.
    destruct (py_str_int z) as [|c s] eqn:Ez; [discriminate|].
    cbn -[py_int_of_string]. rewrite Hz. reflexivity.
  - destruct b; reflexivity.
  - destruct iso as [|c s]; [discriminate|]. cbn -[parse_date]. rewrite Hs. reflexivity.
Qed.

(** The field texts [_parse_element] reads: [int()] first, [float()]
    next, a [ValueError] when both refuse; [time.strptime] for dates. *)
Lemma parse_value_examples :
  parse_value "numeric" (Some "True") = inl ValueError
  /\ parse_value "numeric" (Some "None") = inl ValueError
  /\ parse_value "numeric" (Some " 1_0 ") = inr (PInt 10)
  /\ parse_value "numeric" (Some "2.50") = inr (PFloat "2.50")
  /\ parse_value "date" (Some "2020-2-5") = inr (PDate "2020-02-05")
  /\ parse_value "date" (Some "2019-02-29") = inl ValueError.
Proof. vm_compute. repeat split. Qed.

(** [UdfDictionary.__setitem__] of a key no field carries, outside UDT
    mode, with a non-empty string, an [int], a [bool] or a date (the ISO
    text of a valid date), the fields already there decoding without
    error: the call succeeds, the [dict] maps the key to the value, and a
    [UdfDictionary] built afresh over the new document maps the key to
    the same value. *)
Theorem udf_new_key_reload (d : udf_dict) (key : string) (v : pyval) :
  udt_truthy (ud_udt d) = false ->
  snd (prepare_lookup d) = inr tt ->
  find_field key (elems d) = inr None ->
  ((exists s, v = PStr s /\ s <> "") \/ (exists z, v = PInt z) \/ (exists b, v = PBool b)
   \/ (exists iso, v = PDate iso /\ parse_date iso = Some iso)) ->
  snd (setitem key v d) = inr tt
  /\ dict_get (ud_items (fst (setitem key v d))) key = Some v
  /\ snd (udf_init (ud_root (fst (setitem key v d))) (ud_nesting d) false) = inr tt
  /\ dict_get (ud_items (fst (udf_init (ud_root (fst (setitem key v d))) (ud_nesting d) false))) key
     = Some v.
Proof.
  intros Hd Hp Hf Hv.
  destruct (infer_new v) as [e|[vtype x]] eqn:Hi.
  { exfalso. destruct Hv as [(s & -> & _)|[(z & ->)|[(b & ->)|(iso & -> & _)]]]; discriminate. }
  pose proof (infer_parse v vtype x Hv Hi) as Hpv.
  set (d0 := with_items d (dict_set key v (ud_items d))).
  assert (Hd0 : udt_truthy (ud_udt d0) = false) by exact Hd.
  assert (Hp0 : snd (prepare_lookup d0) = inr tt).
  { unfold prepare_lookup. rewrite (parse_all_snd _ d0 d). exact Hp. }
  assert (Hset : setitem key v d
                 = prepare_lookup (UdfDict (in_fields d0 (fun cs => cs ++ [new_field key vtype x]))
                                           (ud_nesting d0) (ud_udt d0) (ud_items d0))).
  { unfold setitem, setitem_. fold d0.
    change (elems d0) with (elems d). rewrite Hf, Hi. rewrite Hd0.
    destruct (nonudt_edit_run d0 (fun cs => cs ++ [new_field key vtype x]) Hd0) as [U _].
    unfold bind. fold (new_field key vtype x). rewrite U. reflexivity. }
  destruct (reload_appended d0 key vtype x v (ud_udt d0) (ud_items d0) Hpv Hd0 Hd0 Hp0)
    as (R1 & R2 & R3).
  rewrite <- Hset in R1, R2, R3.
  split; [exact R1|]. split; [exact R3|]. rewrite R2.
  unfold udf_init, bind, update_elems. cbn [ud_udt udt_truthy with_root ud_nesting ud_root].
  change (ud_nesting d) with (ud_nesting d0).
  rewrite (focus_in_fields_nonudt d0 _ Hd0). cbn [fst].
  destruct (reload_appended d0 key vtype x v UdtFalse [] Hpv Hd0 eq_refl Hp0) as (S1 & _ & S3).
  split; [exact S1|exact S3].
Qed.

(** A UDT document: the fields sit under the [udf:type] element. *)
Definition docU : elem :=
  Elem "test-entry" [] None
    [Elem udf_type [("name", "Sample Info")] None [fld "String" "colour" "blue"]].

Definition dictU : udf_dict := fst (udf_init docU [] true).

Lemma udf_clear_behaviour_witness :
  (udt_truthy (ud_udt dict1) = false
   /\ snd (clear dict1) = inr tt /\ ud_items (fst (clear dict1)) = []
   /\ elems (fst (clear dict1)) = []
   /\ e_children (focus (fst (clear dict1)))
      = filter (fun c => negb (String.eqb (e_tag c) udf_field)) (e_children (focus dict1)))
  /\ (udt_truthy (ud_udt dictU) = true /\ elems dictU <> []
      /\ clear dictU = (with_items dictU [], inl ValueError)).
Proof.
  destruct (udf_clear_behaviour dict1) as [A _]. destruct (udf_clear_behaviour dictU) as [_ B].
  assert (H1 : udt_truthy (ud_udt dict1) = false) by reflexivity.
  assert (H2 : udt_truthy (ud_udt dictU) = true) by reflexivity.
  assert (H3 : elems dictU <> []) by (vm_compute; discriminate).
  split; [split; [exact H1|exact (A H1)]|].
  split; [exact H2|]. split; [exact H3|]. exact (B H2 H3).
Defined.

Lemma udf_new_key_reload_witness :
  udt_truthy (ud_udt dict1) = false
  /\ snd (prepare_lookup dict1) = inr tt
  /\ find_field "new" (elems dict1) = inr None
  /\ snd (setitem "new" (PInt 7) dict1) = inr tt
  /\ dict_get (ud_items (fst (setitem "new" (PInt 7) dict1))) "new" = Some (PInt 7)
  /\ snd (udf_init (ud_root (fst (setitem "new" (PInt 7) dict1))) (ud_nesting dict1) false) = inr tt
  /\ dict_get (ud_items (fst (udf_init (ud_root (fst (setitem "new" (PInt 7) dict1)))
                                (ud_nesting dict1) false))) "new"
     = Some (PInt 7).
Proof.
  assert (H1 : udt_truthy (ud_udt dict1) = false) by reflexivity.
  assert (H2 : snd (prepare_lookup dict1) = inr tt) by (vm_compute; reflexivity).
  assert (H3 : find_field "new" (elems dict1) = inr None) by (vm_compute; reflexivity).
  split; [exact H1|]. split; [exact H2|]. split; [exact H3|].
  apply (udf_new_key_reload dict1 "new" (PInt 7) H1 H2 H3).
  right. left. exists 7%Z. reflexivity.
Defined.

End UdfMoreFacts.

(* ------------------------------------------------------------------ *)
(** ** [Process.all_outputs] and [Artifact.input_artifact_list] *)

Module ProcessMoreFacts.
Import ProcessModel ProcessMore.

(** The two errors [get_dict] can raise. *)
Definition dict_error (e : exn) : Prop := e = KeyError \/ e = ValueError.

Lemma copy_artifact_error (a : list (string * string)) (key : string) (d : pdict) (e : exn) :
  copy_artifact a key d = inl e -> dict_error e.
Proof.
  unfold copy_artifact. destruct (attr_lookup a key); [|discriminate].
  destruct (String.eqb _ _); [|discriminate]. intros [= <-]. right. reflexivity.
Qed.

Lemma get_dict_error (n : option elem) (e : exn) : get_dict n = inl e -> dict_error e.
Proof.
  unfold get_dict. destruct n as [n|]; [|discriminate].
  set (step := fun (acc : exn + pdict) (key : string) => _ : exn + pdict).
  assert (Hs : forall keys acc e', (forall e0, acc = inl e0 -> dict_error e0) ->
                 fold_left step keys acc = inl e' -> dict_error e').
  { induction keys as [|k keys IH]; cbn; [intros acc e' H; exact (H e')|].
    intros acc e' Hacc. apply IH. intros e0. unfold step.
    destruct acc as [e1|d]; [intros [= <-]; exact (Hacc e1 eq_refl)|]. cbv beta iota.
    destruct (copy_artifact _ "uri" _) as [e2|d'] eqn:E; [intros [= <-]; exact (copy_artifact_error _ _ _ _ E)|].
    apply copy_artifact_error. }
  destruct (fold_left step _ (inr [])) as [e1|d] eqn:Ef.
  - intros [= <-]. eapply Hs; [|exact Ef]. intros e0 H. discriminate H.
  - destruct (get_sub_node n "parent-process") as [pp|]; [|discriminate].
    destruct (attr_lookup (e_attrib pp) "uri"); [|intros [= <-]; left; reflexivity].
    destruct (String.eqb _ _); [intros [= <-]; right; reflexivity|discriminate].
Qed.

Lemma io_pairs_error (ns : list elem) (e : exn) : io_pairs ns = inl e -> dict_error e.
Proof.
  induction ns as [|n ns IH]; cbn; [discriminate|].
  destruct (get_dict (get_sub_node n "input")) as [e1|i] eqn:E1; [intros H; injection H as <-; exact (get_dict_error _ _ E1)|].
  destruct (get_dict (get_sub_node n "output")) as [e2|o] eqn:E2; [intros H; injection H as <-; exact (get_dict_error _ _ E2)|].
  destruct (io_pairs ns); [|discriminate]. intros H; injection H as <-. apply IH. reflexivity.
Qed.

Lemma output_ids_error (ios : list (option pdict * option pdict)) (e : exn) :
  output_ids ios = inl e -> e = KeyError.
Proof.
  induction ios as [|[i [od|]] ios IH]; cbn; [discriminate| |exact IH].
  destruct (pdict_get od "limsid"); [|congruence].
  destruct (output_ids ios); [|discriminate]. intros H; injection H as <-. apply IH. reflexivity.
Qed.

Lemma artifacts_of_ids_error (ids : list string) (e : exn) :
  artifacts_of_ids ids = inl e -> e = ValueError.
Proof. unfold artifacts_of_ids. destruct (existsb _ _); congruence. Qed.

(** The limsid of an entry's output, if it has one. *)
Definition output_limsid (io : option pdict * option pdict) : option string :=
  match snd io with Some od => pdict_get od "limsid" | None => None end.

(** An output present has a non-empty [limsid]. *)
Definition output_ok (io : option pdict * option pdict) : Prop :=
  forall od, snd io = Some od -> exists id, pdict_get od "limsid" = Some id /\ id <> "".

Lemma output_ids_ok (ios : list (option pdict * option pdict)) :
  Forall output_ok ios ->
  output_ids ios = inr (omap output_limsid ios) /\ ~ In "" (omap output_limsid ios).
Proof.
  induction 1 as [|[i [od|]] ios Hio _ [IH IHn]]; [split; [reflexivity|intros []]| |exact (conj IH IHn)].
  cbn. unfold output_limsid at 1 2. cbn.
  destruct (Hio od eq_refl) as (id & E & Hne). rewrite E, IH.
  split; [reflexivity|]. intros [H|H]; [congruence|exact (IHn H)].
Qed.

(** [Process.all_outputs]: it raises [KeyError] (a [parent-process]
    without [uri], an output without [limsid]) or [ValueError] (an empty
    [uri] or [limsid], refused by [Entity.__new__]); unlike [all_inputs]
    it never raises [TypeError] and never logs. When every output present
    has a non-empty [limsid], it returns ([unique=False]) the limsids of
    the outputs in map order, skipping the maps without an output. *)
Theorem all_outputs_result (frozen : list string -> list string) (unique : bool) (root : elem) :
  (forall e, all_outputs frozen unique root = inl e -> e = KeyError \/ e = ValueError)
  /\ (forall ios, input_output_maps root = inr ios ->
      Forall output_ok ios ->
      all_outputs frozen false root = inr (omap output_limsid ios)).
Proof.
  split.
  - intros e. unfold all_outputs.
    destruct (input_output_maps root) as [e1|ios] eqn:Hm.
    + intros H; injection H as <-. exact (io_pairs_error _ _ Hm).
    + destruct (output_ids ios) as [e2|ids] eqn:Ho.
      * intros H; injection H as <-. left. exact (output_ids_error _ _ Ho).
      * intros H. right. exact (artifacts_of_ids_error _ _ H).
  - intros ios Hm Hall. destruct (output_ids_ok ios Hall) as [Ho Hn].
    unfold all_outputs. rewrite Hm, Ho. apply ProcessFacts.artifacts_of_ids_ok. exact Hn.
Qed.

(** An entry at which the loop of [input_artifact_list] raises: no
    output, an output without [limsid], or an output matching [self.id]
    with no input or an input without [uri]. *)
Definition entry_fails (self_id : string) (io : option pdict * option pdict) : Prop :=
  match snd io with
  | None => True
  | Some od =>
      match pdict_get od "limsid" with
      | None => True
      | Some lid => lid = self_id /\
                    match fst io with None => True | Some id_ => pdict_get id_ "uri" = None end
      end
  end.

(** [Artifact.input_artifact_list]: the bare [except: pass] turns the
    first entry at which the loop raises into the end of the list, so
    the result is that of the entries before it, whatever follows; when
    [parent_process.input_output_maps] itself raises, the result is
    empty. *)
Theorem input_artifact_list_truncates (self_id : string)
    (pre : list (option pdict * option pdict)) (io : option pdict * option pdict)
    (post : list (option pdict * option pdict)) :
  entry_fails self_id io ->
  input_artifact_list self_id (inr (pre ++ io :: post)) = input_artifact_list self_id (inr pre)
  /\ (forall e, input_artifact_list self_id (inl e) = []).
Proof.
  intros Hf. split; [|reflexivity]. unfold input_artifact_list.
  generalize (@nil string) as acc.
  induction pre as [|[i o] pre IH]; intros acc.
  - destruct io as [i [od|]]; cbn in Hf |- *; [|reflexivity].
    destruct (pdict_get od "limsid") as [lid|]; [|reflexivity].
    destruct Hf as [-> Hi]. rewrite String.eqb_refl.
    destruct i as [id_|]; [|reflexivity]. rewrite Hi. reflexivity.
  - cbn [app collect_inputs].
    destruct o as [od|]; [|reflexivity].
    destruct (pdict_get od "limsid") as [lid|]; [|reflexivity].
    destruct (String.eqb lid self_id); [|apply IH].
    destruct i as [id_|]; [|reflexivity].
    destruct (pdict_get id_ "uri"); [apply IH|reflexivity].
Qed.

(** A process whose second map has an input and no output. *)
Definition outputless_process : elem :=
  Elem "prc:process" [] None
    [Elem "input-output-map" [] None [ProcessFacts.inp "A1"; ProcessFacts.outp "R1"];
     Elem "input-output-map" [] None [ProcessFacts.inp "A2"]].

Definition io_of (i o : option string) : option pdict * option pdict :=
  (option_map (fun id => [("limsid", id); ("uri", String.append "http://lims/api/v2/artifacts/" id)]) i,
   option_map (fun id => [("limsid", id); ("uri", String.append "http://lims/api/v2/artifacts/" id)]) o).

(** Its maps, as [input_output_maps] reads them. *)
Definition outputless_maps : list (option pdict * option pdict) :=
  [(Some [("limsid", "A1"); ("uri", "http://lims/api/v2/artifacts/A1")],
    Some [("limsid", "R1"); ("uri", "http://lims/api/v2/artifacts/R1"); ("output-type", "ResultFile")]);
   (Some [("limsid", "A2"); ("uri", "http://lims/api/v2/artifacts/A2")], None)].

Lemma all_outputs_result_witness :
  input_output_maps outputless_process = inr outputless_maps
  /\ Forall output_ok outputless_maps
  /\ all_outputs (fun l => l) false outputless_process = inr ["R1"].
Proof.
  assert (Hm : input_output_maps outputless_process = inr outputless_maps) by (vm_compute; reflexivity).
  assert (Ho : Forall output_ok outputless_maps).
  { constructor; [|constructor; [|constructor]]; cbn; intros od Hod;
      [injection Hod as <-; eexists; split; [reflexivity|discriminate]|discriminate]. }
  split; [exact Hm|]. split; [exact Ho|].
  destruct (all_outputs_result (fun l => l) false outputless_process) as [_ H].
  rewrite (H _ Hm Ho). reflexivity.
Defined.

Lemma input_artifact_list_truncates_witness :
  entry_fails "R2" (io_of (Some "A2") None)
  /\ input_artifact_list "R2"
       (inr ([io_of (Some "A1") (Some "R1")] ++ io_of (Some "A2") None :: [io_of (Some "A3") (Some "R2")]))
     = []
  /\ input_artifact_list "R2" (inr [io_of (Some "A3") (Some "R2")])
     = ["http://lims/api/v2/artifacts/A3"].
Proof.
  assert (Hf : entry_fails "R2" (io_of (Some "A2") None)) by exact I.
  split; [exact Hf|]. split; [|vm_compute; reflexivity].
  rewrite (proj1 (input_artifact_list_truncates "R2" [io_of (Some "A1") (Some "R1")]
                    (io_of (Some "A2") None) [io_of (Some "A3") (Some "R2")] Hf)).
  vm_compute. reflexivity.
Defined.


(** The [uri] of the output of a map whose input has the limsid [inart]. *)
Definition matching_output_uri (inart : string) (io : option pdict * option pdict) : option string :=
  match subscript (fst io) "limsid" with
  | inr lid => if String.eqb lid inart
               then match subscript (snd io) "uri" with inr u => Some u | inl _ => None end
               else None
  | inl _ => None
  end.

Lemma opi_type_error (inart : string) (pre post : list (option pdict * option pdict)) (o : option pdict)
    (p : option pdict * option pdict -> exn + bool) :
  (forall io, p io = match subscript (fst io) "limsid" with
                     | inl e => inl e
                     | inr lid => inr (String.eqb lid inart)
                     end) ->
  Forall ProcessFacts.has_input pre -> filter_ex p (pre ++ (None, o) :: post) = inl TypeError.
Proof.
  intros Hp. induction 1 as [|io pre (d & id & Hd & Hid) _ IH].
  - cbn. rewrite Hp. reflexivity.
  - cbn [app filter_ex]. rewrite Hp, Hd. cbn. rewrite Hid, IH. reflexivity.
Qed.

Lemma opi_ok (inart : string) (ios : list (option pdict * option pdict)) :
  Forall ProcessFacts.has_input ios ->
  Forall (fun io => subscript (fst io) "limsid" = inr inart ->
                    exists u, subscript (snd io) "uri" = inr u) ios ->
  exists l,
    filter_ex (fun io => match subscript (fst io) "limsid" with
                         | inl e => inl e
                         | inr lid => inr (String.eqb lid inart)
                         end) ios = inr l
    /\ map_ex (fun io => subscript (snd io) "uri") l = inr (omap (matching_output_uri inart) ios).
Proof.
  induction 1 as [|io ios (d & id & Hd & Hid) _ IH]; intros Hu; [exists []; split; reflexivity|].
  inversion Hu as [|? ? Hio Hrest]; subst.
  destruct (IH Hrest) as (l & Hf & Hm).
  assert (Hs : subscript (fst io) "limsid" = inr id) by (rewrite Hd; cbn; rewrite Hid; reflexivity).
  cbn [filter_ex omap list_omap]. rewrite Hs, Hf.
  unfold matching_output_uri at 1. rewrite Hs.
  destruct (String.eqb_spec id inart) as [<-|Hne].
  - destruct (Hio Hs) as [u Hu']. exists (io :: l). split; [reflexivity|].
    cbn. rewrite Hu', Hm. reflexivity.
  - exists l. split; [reflexivity|]. exact Hm.
Qed.

(** [Process.outputs_per_input]: a map without an input makes the call
    raise [TypeError] whatever [inart] is, once every map before it has
    an input with a limsid; when every map has such an input and every
    map whose input is [inart] has an output with a [uri], the call with
    no type filter returns the [uri]s of those outputs in map order. *)
Theorem outputs_per_input_behaviour (inart : string) (rf srf an : bool) :
  (forall pre o post, Forall ProcessFacts.has_input pre ->
     outputs_per_input inart rf srf an (pre ++ (None, o) :: post) = inl TypeError)
  /\ (forall ios, Forall ProcessFacts.has_input ios ->
      Forall (fun io => subscript (fst io) "limsid" = inr inart ->
                        exists u, subscript (snd io) "uri" = inr u) ios ->
      outputs_per_input inart false false false ios = inr (omap (matching_output_uri inart) ios)).
Proof.
  split.
  - intros pre o post Hpre. unfold outputs_per_input.
    rewrite (opi_type_error inart pre post o) by (reflexivity || exact Hpre). reflexivity.
  - intros ios Hin Hout. destruct (opi_ok inart ios Hin Hout) as (l & Hf & Hm).
    unfold outputs_per_input. rewrite Hf. exact Hm.
Qed.

Lemma outputs_per_input_behaviour_witness :
  Forall ProcessFacts.has_input outputless_maps
  /\ Forall (fun io => subscript (fst io) "limsid" = inr "A1" ->
                       exists u, subscript (snd io) "uri" = inr u) outputless_maps
  /\ outputs_per_input "A1" false false false outputless_maps = inr ["http://lims/api/v2/artifacts/R1"]
  /\ outputs_per_input "A2" false false false ([] ++ (None, None) :: outputless_maps) = inl TypeError.
Proof.
  assert (H1 : Forall ProcessFacts.has_input outputless_maps).
  { constructor; [|constructor; [|constructor]]; do 2 eexists; split; reflexivity. }
  assert (H2 : Forall (fun io => subscript (fst io) "limsid" = inr "A1" ->
                        exists u, subscript (snd io) "uri" = inr u) outputless_maps).
  { constructor; [|constructor; [|constructor]]; cbn; intros H; [eexists; reflexivity|discriminate]. }
  destruct (outputs_per_input_behaviour "A1" false false false) as [_ B].
  destruct (outputs_per_input_behaviour "A2" false false false) as [A _].
  split; [exact H1|]. split; [exact H2|]. split.
  - rewrite (B _ H1 H2). reflexivity.
  - exact (A [] None outputless_maps (List.Forall_nil _)).
Defined.
End ProcessMoreFacts.

(* ------------------------------------------------------------------ *)
(** ** [PlacementDictionary] *)

Module PlacementFacts.
Import Placement.

Lemma pd_get_set (k : option string) (v : string) (it : list (option string * string)) :
  pd_get (pd_set k v it) k = Some v.
Proof.
  induction it as [|[k' v'] it IH]; cbn; [rewrite bool_decide_eq_true_2 by reflexivity; reflexivity|].
  destruct (bool_decide (k = k')) eqn:E; cbn; [rewrite bool_decide_eq_true_2 by reflexivity; reflexivity|].
  rewrite E. exact IH.
Qed.

Lemma parse_placements_app (es1 es2 : list elem) (it : list (option string * string)) :
  parse_placements (es1 ++ es2) it
  = match parse_placements es1 it with
    | inl x => inl x
    | inr it' => parse_placements es2 it'
    end.
Proof.
  revert it. induction es1 as [|e es1 IH]; intros it; [reflexivity|].
  cbn. destruct (parse_placement e it); [reflexivity|apply IH].
Qed.

(** The element [placements[key] = artifact] appends. *)
Definition placement_node (key uri id : string) : elem :=
  Elem "placement" [("uri", uri); ("limsid", id)] None [Elem "value" [] (Some key) []].

(** [PlacementDictionary.__setitem__] with a [str] key: the new
    [placement] element is appended after the existing ones, also when
    the well already held an artifact, whose element stays in the
    document; a [PlacementDictionary] built afresh over the new document
    holds the same mapping as the edited one, the key now giving the new
    artifact (the last element for a key wins). The artifact's [uri] is
    not empty, as for every [Artifact] instance. *)
Theorem placement_setitem_reload (root : elem) (key uri id : string) :
  uri <> "" ->
  snd (placement_init root) = inr tt ->
  get_sub_nodes (pd_root (fst (placement_setitem key uri id (fst (placement_init root))))) "placement"
    = get_sub_nodes root "placement" ++ [placement_node key uri id]
  /\ snd (placement_init (pd_root (fst (placement_setitem key uri id (fst (placement_init root))))))
     = inr tt
  /\ pd_items (fst (placement_init (pd_root (fst (placement_setitem key uri id (fst (placement_init root)))))))
     = pd_items (fst (placement_setitem key uri id (fst (placement_init root))))
  /\ pd_get (pd_items (fst (placement_setitem key uri id (fst (placement_init root))))) (Some key)
     = Some uri.
Proof.
  intros Hu Hok. unfold placement_init in Hok |- *.
  destruct (parse_placements (get_sub_nodes root "placement") []) as [x|it] eqn:Hp; [discriminate|].
  cbn [fst placement_setitem pd_root pd_items].
  fold (placement_node key uri id).
  assert (Hn : get_sub_nodes (append_child root (placement_node key uri id)) "placement"
               = get_sub_nodes root "placement" ++ [placement_node key uri id]).
  { unfold get_sub_nodes, append_child. destruct root as [t a x' cs]. cbn.
    rewrite filter_app. reflexivity. }
  rewrite Hn, parse_placements_app, Hp. cbn.
  apply String.eqb_neq in Hu. rewrite Hu.
  split; [reflexivity|]. split; [reflexivity|]. split; [reflexivity|]. apply pd_get_set.
Qed.

(** A container document whose well [A:1] holds the artifact [u1]. *)
Definition placed_root : elem :=
  Elem "con:container" [] None
    [Elem "name" [] (Some "plate") [];
     Elem "placement" [("uri", "u1"); ("limsid", "a1")] None [Elem "value" [] (Some "A:1") []]].

Lemma placement_setitem_reload_witness :
  "u2" <> "" /\ snd (placement_init placed_root) = inr tt
  /\ length (get_sub_nodes (pd_root (fst (placement_setitem "A:1" "u2" "a2"
              (fst (placement_init placed_root))))) "placement") = 2%nat
  /\ pd_get (pd_items (fst (placement_init (pd_root (fst (placement_setitem "A:1" "u2" "a2"
              (fst (placement_init placed_root)))))))) (Some "A:1") = Some "u2".
Proof.
  assert (Hu : "u2" <> "") by discriminate.
  assert (H : snd (placement_init placed_root) = inr tt) by reflexivity.
  destruct (placement_setitem_reload placed_root "A:1" "u2" "a2" Hu H) as (R1 & _ & R3 & R4).
  split; [exact Hu|]. split; [exact H|]. rewrite R1, R3. split; [reflexivity|exact R4].
Defined.

End PlacementFacts.

(* ------------------------------------------------------------------ *)
(** ** [Entity.get(force=True)] and the class of a cached instance *)

Module EntityMoreFacts.
Import Entities.

Section More.
Variable get_uri : option string -> string -> string.
Variable lims_get : option string -> elem.

(** [Entity.get]: without [force] an in-memory edit of [root] is kept
    and nothing is fetched; with [force=True] the document is fetched
    again from [self.uri], replacing the edited root, and the fetch is
    recorded. *)
Theorem get_force_discards_edits (l : loc) (r : elem) (w : world) (o : obj) :
  heap w !! l = Some o ->
  entity_get lims_get l false (write_root l r w) = (write_root l r w, inr tt)
  /\ read_root l (fst (entity_get lims_get l true (write_root l r w))) = Some (lims_get (obj_uri o))
  /\ fetches (fst (entity_get lims_get l true (write_root l r w))) = fetches w ++ [obj_uri o].
Proof.
  intros Hh.
  pose proof (EntityFacts.write_root_read l r w o Hh) as Hw.
  assert (Hf : fetches (write_root l r w) = fetches w).
  { unfold write_root. rewrite Hh. reflexivity. }
  unfold entity_get, bind. rewrite (EntityFacts.load_ok l _ _ Hw). cbn [negb andb].
  split; [reflexivity|].
  split.
  - unfold read_root. cbn [fst heap]. rewrite lookup_insert_eq. reflexivity.
  - cbn [fst fetches]. rewrite Hf. reflexivity.
Qed.

(** [cls(lims, uri=u)] (or by an [id] resolving to [u]) when [lims.cache]
    already holds an instance of another entity class under [u]:
    [__new__] returns that instance and, as it is no instance of [cls],
    [__init__] is skipped; the caller gets an object of the other class
    and nothing changes. *)
Theorem construct_other_class (c : klass) (uri id : option string) (u : string)
    (w : world) (l : loc) (o : obj) :
  resolve get_uri c uri id = Some u ->
  cache w !! u = Some l -> heap w !! l = Some o ->
  cls_name (o_cls o) <> cls_name c -> cls_name c <> "Entity" ->
  construct get_uri lims_get c uri id false w = (w, inr l).
Proof.
  intros Hr Hc Hh Hn He.
  apply (EntityFacts.construct_hit get_uri lims_get c uri id u w l o Hr Hc Hh).
  right. unfold is_subclass.
  destruct (String.eqb_spec (cls_name (o_cls o)) (cls_name c)); [congruence|].
  destruct (String.eqb_spec (cls_name c) "Entity"); [congruence|reflexivity].
Qed.

End More.

(** A world where the URI of sample [S1] is cached for an [Artifact]
    instance. *)
Definition artifact_k : klass := Klass "Artifact" (Some "artifacts").
Definition sample_k : klass := Klass "Sample" (Some "samples").

Definition mixed_world : world :=
  World {[ "http://lims/api/v2/samples/S1" := 0%nat ]}
        {[ 0%nat := Obj artifact_k true (Some (Some "http://lims/api/v2/samples/S1")) None ]}
        1%nat [].

Definition uri_fn (seg : option string) (i : string) : string :=
  String.append "http://lims/api/v2/" (String.append (default "" seg) (String.append "/" i)).

Definition fetch_fn (u : option string) : elem := Elem "fetched" [] (Some (default "" u)) [].

Lemma get_force_discards_edits_witness :
  heap mixed_world !! 0%nat
    = Some (Obj artifact_k true (Some (Some "http://lims/api/v2/samples/S1")) None)
  /\ read_root 0%nat (fst (entity_get fetch_fn 0%nat true
                            (write_root 0%nat (new_elem "edited") mixed_world)))
     = Some (fetch_fn (Some "http://lims/api/v2/samples/S1")).
Proof.
  assert (H : heap mixed_world !! 0%nat
              = Some (Obj artifact_k true (Some (Some "http://lims/api/v2/samples/S1")) None))
    by reflexivity.
  split; [exact H|].
  exact (proj1 (proj2 (get_force_discards_edits fetch_fn 0%nat (new_elem "edited") mixed_world _ H))).
Defined.

Lemma construct_other_class_witness :
  resolve uri_fn sample_k None (Some "S1") = Some "http://lims/api/v2/samples/S1"
  /\ construct uri_fn fetch_fn sample_k None (Some "S1") false mixed_world = (mixed_world, inr 0%nat).
Proof.
  assert (Hr : resolve uri_fn sample_k None (Some "S1") = Some "http://lims/api/v2/samples/S1")
    by reflexivity.
  split; [exact Hr|].
  apply (construct_other_class uri_fn fetch_fn sample_k None (Some "S1") _ mixed_world 0%nat
           (Obj artifact_k true (Some (Some "http://lims/api/v2/samples/S1")) None) Hr).
  - reflexivity.
  - reflexivity.
  - discriminate.
  - discriminate.
Defined.

End EntityMoreFacts.

(* ------------------------------------------------------------------ *)
(** ** [XmlList.__add__] *)

Module XmlListAddFacts.
Import XmlListModel XmlListMore XmlListSync.

(** [XmlList.__add__] on an [AttributeList]: it returns the new list
    [self + other] and leaves [self] unchanged, yet it has already
    appended a node for every item of [other] to the document and
    rescanned [_elems]; afterwards the document holds the items of
    [self + other] while [self] holds only its own, so the two no longer
    correspond once [other] is not empty. *)
Theorem attrlist_add_extends_document (tag : string) (keys : list string) (s : xl AL) (vs : list AL) :
  attr_sync tag keys s ->
  snd (add AL (fun v => v) tag keys vs s) = inr (xl_items s ++ vs)
  /\ xl_items (fst (add AL (fun v => v) tag keys vs s)) = xl_items s
  /\ xl_elems (fst (add AL (fun v => v) tag keys vs s))
     = get_sub_nodes (focus AL keys (fst (add AL (fun v => v) tag keys vs s))) tag
  /\ map e_attrib (xl_elems (fst (add AL (fun v => v) tag keys vs s))) = xl_items s ++ vs.
Proof.
  intros [He Hi]. unfold add, bind.
  destruct (additems_run tag keys vs s) as (H1 & H2 & H3).
  destruct (additems AL (fun v => v) tag keys vs s) as [s1 r1]. cbn in H1, H2, H3. subst r1.
  destruct (update_elems_run tag keys s1) as (Hu & Hf). rewrite Hu in Hf |- *.
  cbn. rewrite H3. split; [reflexivity|]. split; [reflexivity|].
  unfold focus in Hf |- *. cbn in Hf |- *. rewrite Hf. split; [reflexivity|].
  unfold focus in H2. rewrite H2, <- Hi, He. unfold focus.
  destruct (snd (rootnode keys (xl_root s))) as [t a x cs]. unfold get_sub_nodes.
  cbn [set_children e_children].
  rewrite filter_created, map_app, map_attrib_created. reflexivity.
Qed.

Lemma attrlist_add_extends_document_witness :
  attr_sync "sample" ["samples"] w_list
  /\ snd (add AL (fun v => v) "sample" ["samples"] [w_item] w_list) = inr (xl_items w_list ++ [w_item])
  /\ xl_items (fst (add AL (fun v => v) "sample" ["samples"] [w_item] w_list)) = xl_items w_list
  /\ xl_elems (fst (add AL (fun v => v) "sample" ["samples"] [w_item] w_list))
     = get_sub_nodes (focus AL ["samples"] (fst (add AL (fun v => v) "sample" ["samples"] [w_item] w_list))) "sample"
  /\ map e_attrib (xl_elems (fst (add AL (fun v => v) "sample" ["samples"] [w_item] w_list)))
     = xl_items w_list ++ [w_item].
Proof.
  split; [exact w_list_sync|].
  exact (attrlist_add_extends_document "sample" ["samples"] w_list [w_item] w_list_sync).
Defined.

End XmlListAddFacts.
